(** * data_validation/__main__.py: configuration assembly, table matching,
      YAML persistence and the validation runner.

    A shallow embedding of the command-line entry point of the data
    validation tool.  Python dictionaries are insertion-ordered association
    lists, exceptions are values of an error type, and the calls that reach
    outside the module (connection store, client acquisition, validation
    engine, JSON decoding, files) thread an explicit world. *)

From Stdlib Require Import String List ZArith QArith Bool Lia Arith.
Import ListNotations.

#[local] Set Warnings "-register-all".
Local Close Scope Q_scope.
Local Open Scope string_scope.
Local Open Scope list_scope.

(* ================================================================== *)
(** ** Python data: JSON / YAML shaped values *)

(** What [json.loads] and [yaml.load] return, and what the module builds out
    of dict and list literals.  Floating-point numbers do not occur in the
    module's own data and are left out. *)
Inductive value : Type :=
| VNone
| VBool (b : bool)
| VInt (z : Z)
| VStr (s : string)
| VList (l : list value)
| VDict (d : list (string * value)).

(** ** Exceptions *)

(** A raised exception: its class name and its argument. *)
Record exn : Type := mkExn { exn_class : string; exn_arg : string }.

Definition ValueError (msg : string) : exn := mkExn "ValueError" msg.
Definition KeyError (key : string) : exn := mkExn "KeyError" key.
Definition TypeError (msg : string) : exn := mkExn "TypeError" msg.
Definition IndexError (msg : string) : exn := mkExn "IndexError" msg.
Definition FileNotFoundError (path : string) : exn :=
  mkExn "FileNotFoundError" path.

(** The error kind the specification names for malformed documents.  No
    statement of the module raises it. *)
Definition is_SerializationError (e : exn) : Prop :=
  exn_class e = "SerializationError".

Inductive result (A : Type) : Type :=
| Ok (a : A)
| Raise (e : exn).
Arguments Ok {A} a.
Arguments Raise {A} e.

Definition rbind {A B} (m : result A) (k : A -> result B) : result B :=
  match m with
  | Ok a => k a
  | Raise e => Raise e
  end.

Declare Scope result_scope.
Delimit Scope result_scope with result.
Notation "x <- m ;; k" := (rbind m (fun x => k))
  (at level 61, m at next level, right associativity) : result_scope.

(* ================================================================== *)
(** ** Dictionaries *)

(** A Python [dict] with string keys: association list in insertion order.
    Assigning to a key that is present replaces the value where it stands;
    assigning to a new key appends. *)
Definition dict (V : Type) : Type := list (string * V).

Fixpoint dict_get {V} (k : string) (d : dict V) : option V :=
  match d with
  | [] => None
  | (k', v) :: d' => if String.eqb k k' then Some v else dict_get k d'
  end.

Fixpoint dict_set {V} (k : string) (v : V) (d : dict V) : dict V :=
  match d with
  | [] => [(k, v)]
  | (k', v') :: d' =>
      if String.eqb k k' then (k, v) :: d' else (k', v') :: dict_set k v d'
  end.

Definition dict_keys {V} (d : dict V) : list string := map fst d.

(** A dict literal [{k1: v1, k2: v2, ...}]: the items are stored left to
    right. *)
Definition dict_literal {V} (items : list (string * V)) : dict V :=
  fold_left (fun d kv => dict_set (fst kv) (snd kv) d) items [].

(** [d.pop(k, None)] used for its effect: the entry of [k] is dropped. *)
Definition dict_remove {V} (k : string) (d : dict V) : dict V :=
  filter (fun kv => negb (String.eqb k (fst kv))) d.

(** [obj[key]] with a string key. *)
Definition py_getitem (obj : value) (key : string) : result value :=
  match obj with
  | VDict d =>
      match dict_get key d with
      | Some v => Ok v
      | None => Raise (KeyError key)
      end
  | _ => Raise (TypeError "object is not subscriptable by a string key")
  end.

(** [obj[key] = v] with a string key. *)
Definition py_setitem (obj : value) (key : string) (v : value) : result value :=
  match obj with
  | VDict d => Ok (VDict (dict_set key v d))
  | _ => Raise (TypeError "object does not support item assignment")
  end.

Fixpoint chars (s : string) : list value :=
  match s with
  | EmptyString => []
  | String c s' => VStr (String c EmptyString) :: chars s'
  end.

(** [for x in obj]: the items a [for] loop visits. *)
Definition py_iter (obj : value) : result (list value) :=
  match obj with
  | VList l => Ok l
  | VDict d => Ok (map VStr (dict_keys d))
  | VStr s => Ok (chars s)
  | _ => Raise (TypeError "object is not iterable")
  end.

(** Truth value of an optional command-line string: [None] and the empty
    string are false. *)
Definition truthy (a : option string) : bool :=
  match a with
  | None => false
  | Some s => negb (String.eqb s EmptyString)
  end.

(* ================================================================== *)
(** ** YAML documents as they are stored *)

(** [yaml.dump] writes the keys of every mapping in sorted order, and
    [yaml.load] gives the mappings back in the order of the text: a value
    that went through a file comes back with the keys of all its mappings
    sorted. *)
Fixpoint insert_entry {V} (k : string) (v : V) (d : dict V) : dict V :=
  match d with
  | [] => [(k, v)]
  | (k', v') :: d' =>
      if String.leb k k' then (k, v) :: d else (k', v') :: insert_entry k v d'
  end.

Fixpoint sort_entries {V} (d : dict V) : dict V :=
  match d with
  | [] => []
  | (k, v) :: d' => insert_entry k v (sort_entries d')
  end.

Fixpoint dumped_and_loaded (v : value) : value :=
  match v with
  | VList l => VList (map dumped_and_loaded l)
  | VDict d =>
      VDict (sort_entries
               ((fix entries (d : list (string * value)) :=
                   match d with
                   | [] => []
                   | (k, v') :: d' => (k, dumped_and_loaded v') :: entries d'
                   end) d))
  | _ => v
  end.

(* ================================================================== *)
(** ** consts *)

Module consts.
(** Modelled from the spec: the key names of module [consts], which is not
    part of the given source.  The document keys are the top-level keys of
    the persisted YAML layout; the configuration keys name the fields of a
    table descriptor, a table match and a validation configuration. *)
Definition YAML_SOURCE := "source".
Definition YAML_TARGET := "target".
Definition YAML_RESULT_HANDLER := "result_handler".
Definition YAML_VALIDATIONS := "validations".

Definition CONFIG_SOURCE_CONN := "source_conn".
Definition CONFIG_TARGET_CONN := "target_conn".
Definition CONFIG_TYPE := "type".
Definition CONFIG_SCHEMA_NAME := "schema_name".
Definition CONFIG_TABLE_NAME := "table_name".
Definition CONFIG_TARGET_SCHEMA_NAME := "target_schema_name".
Definition CONFIG_TARGET_TABLE_NAME := "target_table_name".
Definition CONFIG_AGGREGATES := "aggregates".
Definition CONFIG_GROUPED_COLUMNS := "grouped_columns".
Definition CONFIG_RESULT_HANDLER := "result_handler".
End consts.

Import consts.

(* ================================================================== *)
(** ** Collaborators *)

(** The command-line namespace produced by the argument parser.  Optional
    flags are [None] when absent. *)
Record Args : Type := mkArgs {
  args_command : string;
  args_connect_cmd : string;
  args_connection_name : string;
  args_config_file : option string;
  args_source_conn : string;
  args_target_conn : string;
  args_tables_list : string;
  args_type : string;
  args_count : option string;
  args_sum : option string;
  args_grouped_columns : option string;
  args_result_handler_config : option string;
  args_verbose : bool
}.

(** A database client: [list_databases()] and [list_tables(database=...)].
    Either call may raise. *)
Record Client : Type := mkClient {
  list_databases : result (list string);
  list_tables : string -> result (list string)
}.

(** [ConfigManager(config, source_client, target_client, verbose=...)]: a
    configuration dictionary together with the two client handles. *)
Record ConfigManager : Type := mkConfigManager {
  config : dict value;
  source_client : Client;
  target_client : Client;
  cm_verbose : bool
}.

(** Calls that leave the module and act on the outside world, in the order
    they are made. *)
Inductive Event : Type :=
| EvGetDataClient (conn : value)
| EvStoreConnection (name : string) (conn : value)
| EvListConnections
| EvExecute (cfg : dict value) (verbose : bool).

Record World : Type := mkWorld {
  conn_store : dict value;     (* the stored connections of cli_tools *)
  files : dict value;          (* path |-> the YAML document at a path
                                  the module itself opens *)
  calls : list Event;          (* external calls made so far *)
  stdout : list string         (* lines printed *)
}.

(** The parts the module calls but does not define: the JSON codec, the
    string metric of the jellyfish library, the connection tools, client
    acquisition, the validation engine, the file system's answer to
    [open(path, "w")], and the aggregate builders of the configuration
    manager.  The engine's outcome may depend on everything that was called
    before it. *)
Class External : Type := {
  json_loads : string -> result value;
  json_dumps : value -> string;
  similarity : string -> string -> Q;
  get_connection : value -> dict value -> result value;
  get_connection_config_from_args : Args -> result value;
  store_connection : string -> value -> dict value -> result (dict value);
  get_data_client : value -> result Client;
  execute : list Event -> dict value -> bool -> result unit;
  open_for_writing : string -> result unit;
  build_config_count_aggregate : ConfigManager -> value;
  build_config_column_aggregates :
    ConfigManager -> string -> value -> value -> result (list value);
  build_config_grouped_columns : ConfigManager -> value -> result (list value)
}.

(* ================================================================== *)
(** ** The world-passing monad *)

Definition M (A : Type) : Type := World -> result A * World.

Definition ret {A} (a : A) : M A := fun w => (Ok a, w).

Definition raise {A} (e : exn) : M A := fun w => (Raise e, w).

Definition bind {A B} (m : M A) (k : A -> M B) : M B :=
  fun w =>
    match m w with
    | (Ok a, w') => k a w'
    | (Raise e, w') => (Raise e, w')
    end.

Definition lift {A} (r : result A) : M A := fun w => (r, w).

Declare Scope M_scope.
Delimit Scope M_scope with M.
Notation "x <- m ;; k" := (bind m (fun x => k))
  (at level 61, m at next level, right associativity) : M_scope.

Definition log (ev : Event) : M unit :=
  fun w => (Ok tt, mkWorld (conn_store w) (files w) (calls w ++ [ev]) (stdout w)).

Definition print (line : string) : M unit :=
  fun w => (Ok tt, mkWorld (conn_store w) (files w) (calls w) (stdout w ++ [line])).

(** Loops.  [for x in l: acc = f(acc, x)], [for x in l: out.append(f(x))] and
    [for x in l: f(x)]; an exception leaves the loop at once. *)
Fixpoint fold_result {A S} (f : S -> A -> result S) (l : list A) (s : S)
  : result S :=
  match l with
  | [] => Ok s
  | x :: l' => (s' <- f s x ;; fold_result f l' s')%result
  end.

Fixpoint map_result {A B} (f : A -> result B) (l : list A) : result (list B) :=
  match l with
  | [] => Ok []
  | x :: l' => (y <- f x ;; ys <- map_result f l' ;; Ok (y :: ys))%result
  end.

Fixpoint for_each {A} (f : A -> M unit) (l : list A) : M unit :=
  match l with
  | [] => ret tt
  | x :: l' => (_ <- f x ;; for_each f l')%M
  end.

(* ================================================================== *)
(** ** config_manager.ConfigManager *)

Definition value_is_str (v : option value) (s : string) : bool :=
  match v with
  | Some (VStr s') => String.eqb s' s
  | _ => false
  end.

(** Modelled from the spec: property [validation_type] of the configuration
    manager, the validation type held by the configuration. *)
Definition validation_type (cm : ConfigManager) : option value :=
  dict_get CONFIG_TYPE (config cm).

(** Modelled from the spec: property [aggregates], the aggregate list of the
    configuration, empty before anything was appended. *)
Definition aggregates (cm : ConfigManager) : list value :=
  match dict_get CONFIG_AGGREGATES (config cm) with
  | Some (VList l) => l
  | _ => []
  end.

(** Modelled from the spec: property [query_groups], the group-column list. *)
Definition query_groups (cm : ConfigManager) : list value :=
  match dict_get CONFIG_GROUPED_COLUMNS (config cm) with
  | Some (VList l) => l
  | _ => []
  end.

(** Modelled from the spec: property [result_handler_config], the
    result-handler configuration the manager was built with ([None] when
    there is none). *)
Definition result_handler_config (cm : ConfigManager) : value :=
  match dict_get CONFIG_RESULT_HANDLER (config cm) with
  | Some v => v
  | None => VNone
  end.

Definition source_conn (cm : ConfigManager) : option value :=
  dict_get CONFIG_SOURCE_CONN (config cm).

Definition target_conn (cm : ConfigManager) : option value :=
  dict_get CONFIG_TARGET_CONN (config cm).

Definition set_config (cm : ConfigManager) (k : string) (v : value)
  : ConfigManager :=
  mkConfigManager (dict_set k v (config cm))
    (source_client cm) (target_client cm) (cm_verbose cm).

(** Modelled from the spec: [append_aggregates(specs)] of the configuration
    object factory, which appends the assembler's aggregate specs to the
    configuration. *)
Definition append_aggregates (cm : ConfigManager) (specs : list value)
  : ConfigManager :=
  set_config cm CONFIG_AGGREGATES (VList (aggregates cm ++ specs)).

(** Modelled from the spec: [append_query_groups(spec)] ([append_group] in the
    interface list), which attaches the group columns. *)
Definition append_query_groups (cm : ConfigManager) (specs : list value)
  : ConfigManager :=
  set_config cm CONFIG_GROUPED_COLUMNS (VList (query_groups cm ++ specs)).

Definition identity_keys : list string :=
  [CONFIG_SCHEMA_NAME; CONFIG_TABLE_NAME;
   CONFIG_TARGET_SCHEMA_NAME; CONFIG_TARGET_TABLE_NAME].

(** The entries of a table object that identify the table. *)
Definition table_identity (table_obj : value) : dict value :=
  match table_obj with
  | VDict d => filter (fun kv => existsb (String.eqb (fst kv)) identity_keys) d
  | _ => []
  end.

(** Modelled from the spec: [ConfigManager.build_config_manager], the factory
    [build(type, source_conn, target_conn, source_client, target_client,
    table_identity, result_handler_config, verbose)]: a base configuration
    bound to the two connections and the table identity, with no aggregate
    yet. *)
Definition build_config_manager (config_type : string)
    (source_conn target_conn : value) (source_client target_client : Client)
    (table_obj : value) (result_handler_config : value) (verbose : bool)
  : ConfigManager :=
  mkConfigManager
    (dict_literal
       ([(CONFIG_TYPE, VStr config_type);
         (CONFIG_SOURCE_CONN, source_conn);
         (CONFIG_TARGET_CONN, target_conn)]
        ++ table_identity table_obj
        ++ [(CONFIG_RESULT_HANDLER, result_handler_config)]))
    source_client target_client verbose.

Definition document_level_keys : list string :=
  [CONFIG_SOURCE_CONN; CONFIG_TARGET_CONN; CONFIG_RESULT_HANDLER].

(** Modelled from the spec: [get_yaml_validation_block] ([to_yaml_block] in
    the interface list).  A validation block carries the validation type, the
    table identity, the aggregate list and the group-column list; the
    connections and the result handler are document-level fields and are
    not repeated in the block. *)
Definition get_yaml_validation_block (cm : ConfigManager) : value :=
  VDict (filter
           (fun kv => negb (existsb (String.eqb (fst kv)) document_level_keys))
           (config cm)).

(* ================================================================== *)
(** ** jellyfish_distance *)

Section Matching.
Context `{External}.

(** The best-scoring key of [target_list] with its score; of several keys
    with the best score the first one met is kept. *)
Fixpoint best_match (search_key : string) (target_list : list string)
  : option (string * Q) :=
  match target_list with
  | [] => None
  | t :: ts =>
      let s := similarity search_key t in
      match best_match search_key ts with
      | Some (t', s') => if Qle_bool s' s then Some (t, s) else Some (t', s')
      | None => Some (t, s)
      end
  end.

(** Modelled from the spec: [jellyfish_distance.extract_closest_match],
    which is not part of the given source.  It scores the search key
    against every target key, selects the key with the maximum score (the
    first one met on ties) and gives it only if that score reaches the
    cutoff; otherwise it gives [None]. *)
Definition extract_closest_match (search_key : string)
    (target_list : list string) (score_cutoff : Q) : option string :=
  match best_match search_key target_list with
  | Some (t, s) => if Qle_bool score_cutoff s then Some t else None
  | None => None
  end.
End Matching.

(* ================================================================== *)
(** ** __main__ *)

Section Main.
Context `{External}.

Definition _get_arg_config_file (args : Args) : result string :=
  match args_config_file args with
  | Some path =>
      if truthy (Some path) then Ok path
      else Raise (ValueError "YAML Config File was not supplied.")
  | None => Raise (ValueError "YAML Config File was not supplied.")
  end.

(** Opening a path that holds no file raises; otherwise the document the
    file holds is loaded. *)
Definition _get_yaml_config_from_file (config_file_path : string) : M value :=
  fun w =>
    match dict_get config_file_path (files w) with
    | Some yaml_configs => (Ok yaml_configs, w)
    | None => (Raise (FileNotFoundError config_file_path), w)
    end.

(** [None if a == "*" else json.loads(a)] *)
Definition col_args_of (a : string) : result value :=
  if String.eqb a "*" then Ok VNone else json_loads a.

Definition get_aggregate_config (args : Args) (config_manager : ConfigManager)
  : result (list value) :=
  (let aggregate_configs := [build_config_count_aggregate config_manager] in
   aggregate_configs <-
     match args_count args with
     | Some count =>
         if truthy (Some count) then
           col_args <- col_args_of count ;;
           more <- build_config_column_aggregates
                     config_manager "count" col_args VNone ;;
           Ok (aggregate_configs ++ more)
         else Ok aggregate_configs
     | None => Ok aggregate_configs
     end ;;
   aggregate_configs <-
     match args_sum args with
     | Some sum =>
         if truthy (Some sum) then
           col_args <- col_args_of sum ;;
           more <- build_config_column_aggregates
                     config_manager "sum" col_args
                     (VList [VStr "int64"; VStr "float64"]) ;;
           Ok (aggregate_configs ++ more)
         else Ok aggregate_configs
     | None => Ok aggregate_configs
     end ;;
   Ok aggregate_configs)%result.

(** [json.loads(a)] for an optional argument; [json.loads(None)] is a type
    error. *)
Definition json_loads_opt (a : option string) : result value :=
  match a with
  | Some s => json_loads s
  | None => Raise (TypeError "the JSON object must be str, bytes or bytearray")
  end.

Definition build_config_from_args (args : Args) (config_manager : ConfigManager)
  : result ConfigManager :=
  (aggregate_configs <- get_aggregate_config args config_manager ;;
   let config_manager := append_aggregates config_manager aggregate_configs in
   if value_is_str (validation_type config_manager) "GroupedColumn" then
     grouped_columns <- json_loads_opt (args_grouped_columns args) ;;
     groups <- build_config_grouped_columns config_manager grouped_columns ;;
     Ok (append_query_groups config_manager groups)
   else Ok config_manager)%result.

Definition acquire_client (conn : value) : M Client :=
  (_ <- log (EvGetDataClient conn) ;; lift (get_data_client conn))%M.

Definition resolve_connection (ref : value) : M value :=
  fun w => (get_connection ref (conn_store w), w).

Definition build_config_managers_from_args (args : Args)
  : M (list ConfigManager) :=
  (let config_type := args_type args in
   source_conn <- resolve_connection (VStr (args_source_conn args)) ;;
   target_conn <- resolve_connection (VStr (args_target_conn args)) ;;
   result_handler_config <-
     lift match args_result_handler_config args with
          | Some rhc => if truthy (Some rhc) then json_loads rhc else Ok VNone
          | None => Ok VNone
          end ;;
   source_client <- acquire_client source_conn ;;
   target_client <- acquire_client target_conn ;;
   tables_list <- lift (json_loads (args_tables_list args)) ;;
   table_objs <- lift (py_iter tables_list) ;;
   lift (map_result
           (fun table_obj =>
              let config_manager :=
                build_config_manager config_type source_conn target_conn
                  source_client target_client table_obj
                  result_handler_config (args_verbose args) in
              build_config_from_args args config_manager)
           table_objs))%M.

(** The body of the loop over the validation blocks of a document. *)
Definition config_manager_of_block (args : Args) (yaml_configs : value)
    (source_conn target_conn : value) (source_client target_client : Client)
    (config : value) : result ConfigManager :=
  (config <- py_setitem config CONFIG_SOURCE_CONN source_conn ;;
   config <- py_setitem config CONFIG_TARGET_CONN target_conn ;;
   result_handler <- py_getitem yaml_configs YAML_RESULT_HANDLER ;;
   config <- py_setitem config CONFIG_RESULT_HANDLER result_handler ;;
   match config with
   | VDict d =>
       Ok (mkConfigManager d source_client target_client (args_verbose args))
   | _ => Raise (TypeError "configuration is not a dict")
   end)%result.

Definition build_config_managers_from_yaml (args : Args)
  : M (list ConfigManager) :=
  (config_file_path <- lift (_get_arg_config_file args) ;;
   yaml_configs <- _get_yaml_config_from_file config_file_path ;;
   source_ref <- lift (py_getitem yaml_configs YAML_SOURCE) ;;
   source_conn <- resolve_connection source_ref ;;
   target_ref <- lift (py_getitem yaml_configs YAML_TARGET) ;;
   target_conn <- resolve_connection target_ref ;;
   source_client <- acquire_client source_conn ;;
   target_client <- acquire_client target_conn ;;
   validations <- lift (py_getitem yaml_configs YAML_VALIDATIONS) ;;
   blocks <- lift (py_iter validations) ;;
   lift (map_result
           (config_manager_of_block args yaml_configs source_conn target_conn
              source_client target_client)
           blocks))%M.

Definition table_key (database_name table_name : string) : string :=
  database_name ++ "__" ++ table_name.

Definition table_obj_of (database_name table_name : string) : value :=
  VDict (dict_literal [(CONFIG_SCHEMA_NAME, VStr database_name);
                       (CONFIG_TABLE_NAME, VStr table_name)]).

Definition _get_all_tables_from_client (client : Client)
  : result (dict value) :=
  (databases <- list_databases client ;;
   fold_result
     (fun table_map database_name =>
        tables <- list_tables client database_name ;;
        fold_result
          (fun table_map table_name =>
             let table_obj := table_obj_of database_name table_name in
             let table_key := table_key database_name table_name in
             Ok (dict_set table_key table_obj table_map))
          tables table_map)
     databases [])%result.

(** [table_map[key]] on a table map, where [key] may be [None]. *)
Definition table_map_item (table_map : dict value) (key : option string)
  : result value :=
  match key with
  | Some k => py_getitem (VDict table_map) k
  | None => Raise (KeyError "None")
  end.

Definition _compare_match_tables (source_table_map target_table_map : dict value)
  : result (list value) :=
  let target_keys := dict_keys target_table_map in
  map_result
    (fun source_key =>
       (let target_key :=
          extract_closest_match source_key target_keys 0%Q in
        source_obj <- table_map_item source_table_map (Some source_key) ;;
        schema_name <- py_getitem source_obj CONFIG_SCHEMA_NAME ;;
        source_obj <- table_map_item source_table_map (Some source_key) ;;
        table_name <- py_getitem source_obj CONFIG_SCHEMA_NAME ;;
        target_obj <- table_map_item target_table_map target_key ;;
        target_schema_name <- py_getitem target_obj CONFIG_SCHEMA_NAME ;;
        target_obj <- table_map_item target_table_map target_key ;;
        target_table_name <- py_getitem target_obj CONFIG_SCHEMA_NAME ;;
        Ok (VDict (dict_literal
                     [(CONFIG_SCHEMA_NAME, schema_name);
                      (CONFIG_TABLE_NAME, table_name);
                      (CONFIG_TARGET_SCHEMA_NAME, target_schema_name);
                      (CONFIG_TARGET_TABLE_NAME, target_table_name)])))%result)
    (dict_keys source_table_map).

Definition find_tables_using_string_matching (args : Args) : M string :=
  (source_conn <- resolve_connection (VStr (args_source_conn args)) ;;
   target_conn <- resolve_connection (VStr (args_target_conn args)) ;;
   source_client <- acquire_client source_conn ;;
   target_client <- acquire_client target_conn ;;
   source_table_map <- lift (_get_all_tables_from_client source_client) ;;
   target_table_map <- lift (_get_all_tables_from_client target_client) ;;
   table_configs <-
     lift (_compare_match_tables source_table_map target_table_map) ;;
   ret (json_dumps (VList table_configs)))%M.

Definition convert_config_to_yaml (args : Args)
    (config_managers : list ConfigManager) : result value :=
  match config_managers with
  | [] => Raise (IndexError "list index out of range")
  | first :: _ =>
      Ok (VDict (dict_literal
                   [(YAML_SOURCE, VStr (args_source_conn args));
                    (YAML_TARGET, VStr (args_target_conn args));
                    (YAML_RESULT_HANDLER, result_handler_config first);
                    (YAML_VALIDATIONS,
                      VList (map get_yaml_validation_block config_managers))]))
  end.

Definition run_validation (config_manager : ConfigManager) (verbose : bool)
  : M unit :=
  fun w =>
    let outcome := execute (calls w) (config config_manager) verbose in
    (outcome,
     mkWorld (conn_store w) (files w)
       (calls w ++ [EvExecute (config config_manager) verbose]) (stdout w)).

Definition run_validations (args : Args) (config_managers : list ConfigManager)
  : M unit :=
  for_each (fun config_manager =>
              run_validation config_manager (args_verbose args))
    config_managers.

(** [with open(path, "w") as f: f.write(text)], where [text] is the dump of
    [doc]: opening may raise, and then nothing is stored; otherwise the path
    holds the document as it will be loaded. *)
Definition write_file (path : string) (doc : value) : M unit :=
  fun w =>
    match open_for_writing path with
    | Ok _ =>
        (Ok tt,
         mkWorld (conn_store w)
           (dict_set path (dumped_and_loaded doc) (files w))
           (calls w) (stdout w))
    | Raise e => (Raise e, w)
    end.

Definition store_yaml_config_file (args : Args)
    (config_managers : list ConfigManager) : M unit :=
  (config_file_path <- lift (_get_arg_config_file args) ;;
   yaml_configs <- lift (convert_config_to_yaml args config_managers) ;;
   write_file config_file_path yaml_configs)%M.

Definition run (args : Args) : M unit :=
  (config_managers <- build_config_managers_from_args args ;;
   if truthy (args_config_file args) then
     store_yaml_config_file args config_managers
   else run_validations args config_managers)%M.

Definition persist_connection (name : string) (conn : value) : M unit :=
  fun w =>
    let w' := mkWorld (conn_store w) (files w)
                (calls w ++ [EvStoreConnection name conn]) (stdout w) in
    match store_connection name conn (conn_store w) with
    | Ok store' => (Ok tt, mkWorld store' (files w') (calls w') (stdout w'))
    | Raise e => (Raise e, w')
    end.

Definition run_connections (args : Args) : M unit :=
  if String.eqb (args_connect_cmd args) "list" then
    log EvListConnections
  else if String.eqb (args_connect_cmd args) "add" then
    (conn <- lift (get_connection_config_from_args args) ;;
     _ <- acquire_client conn ;;
     persist_connection (args_connection_name args) conn)%M
  else
    raise (ValueError ("Connections Argument '" ++ args_connect_cmd args
                         ++ "' is not supported")).

Definition main (args : Args) : M unit :=
  if String.eqb (args_command args) "run" then run args
  else if String.eqb (args_command args) "connections" then
    run_connections args
  else if String.eqb (args_command args) "run-config" then
    (config_managers <- build_config_managers_from_yaml args ;;
     run_validations args config_managers)%M
  else if String.eqb (args_command args) "find-tables" then
    (out <- find_tables_using_string_matching args ;; print out)%M
  else
    raise (ValueError ("Positional Argument '" ++ args_command args
                         ++ "' is not supported")).
End Main.

(* ================================================================== *)
(** ** Notions used in the statements *)

(** Every (database, table) pair of a catalog, databases in the order the
    client lists them. *)
Definition catalog_pairs (tables_of : string -> list string)
    (dbs : list string) : list (string * string) :=
  flat_map (fun db => map (pair db) (tables_of db)) dbs.

(** The entry the enumerator stores for a (database, table) pair. *)
Definition catalog_entry (p : string * string) : string * value :=
  (table_key (fst p) (snd p), table_obj_of (fst p) (snd p)).

(** The inner loop of [_get_all_tables_from_client], over the tables of one
    database. *)
Definition enumerate_tables (database_name : string)
    (table_map : dict value) (tables : list string) : result (dict value) :=
  fold_result
    (fun table_map table_name =>
       Ok (dict_set (table_key database_name table_name)
             (table_obj_of database_name table_name) table_map))
    tables table_map.

(** The world after one more external call. *)
Definition logged (ev : Event) (w : World) : World :=
  mkWorld (conn_store w) (files w) (calls w ++ [ev]) (stdout w).

(** The engine call the runner makes for [cm]. *)
Definition execute_event (args : Args) (cm : ConfigManager) : Event :=
  EvExecute (config cm) (args_verbose args).

(** Every descriptor of the map is a dict with a schema name. *)
Definition is_table_map (table_map : dict value) : Prop :=
  forall k v, In (k, v) table_map ->
    exists d s, v = VDict d /\ dict_get CONFIG_SCHEMA_NAME d = Some s.

(** The document-level fields a configuration of the argument path is
    bound to. *)
Definition bound_to (sconn tconn rh : value) (cm : ConfigManager) : Prop :=
  dict_get CONFIG_SOURCE_CONN (config cm) = Some sconn
  /\ dict_get CONFIG_TARGET_CONN (config cm) = Some tconn
  /\ dict_get CONFIG_RESULT_HANDLER (config cm) = Some rh.

(** A validation block holds none of the document-level fields. *)
Definition block_without_document_fields (block : value) : Prop :=
  exists bd, block = VDict bd
    /\ forall k, In k document_level_keys -> dict_get k bd = None.

Section Statements.
Context `{External}.

(** The best score of a source key against the target keys reaches the
    cutoff [c]. *)
Definition clears_cutoff (source_key : string) (target_keys : list string)
    (c : Q) : bool :=
  match best_match source_key target_keys with
  | Some (_, s) => Qle_bool c s
  | None => false
  end.

(** The contract with a cutoff [c], in the specification's words: a match
    is emitted for a source key only if its best score reaches [c], so the
    result holds no more matches than there are source keys that clear
    the cutoff. *)
Definition emits_only_above_cutoff (c : Q)
    (source_table_map target_table_map : dict value) : Prop :=
  forall matches,
    _compare_match_tables source_table_map target_table_map = Ok matches ->
    length matches
    <= length (filter
                 (fun k => clears_cutoff k (dict_keys target_table_map) c)
                 (dict_keys source_table_map)).

(** The match the loop appends for [source_key]: the best-scoring target
    key [t] is looked up, and the two schema names fill the four fields. *)
Definition paired (source_table_map target_table_map : dict value)
    (source_key : string) (m : value) : Prop :=
  exists t s sd td sname tname,
    best_match source_key (dict_keys target_table_map) = Some (t, s)
    /\ (forall t', In t' (dict_keys target_table_map) ->
          (similarity source_key t' <= s)%Q)
    /\ dict_get source_key source_table_map = Some (VDict sd)
    /\ dict_get CONFIG_SCHEMA_NAME sd = Some sname
    /\ dict_get t target_table_map = Some (VDict td)
    /\ dict_get CONFIG_SCHEMA_NAME td = Some tname
    /\ m = VDict [("schema_name", sname); ("table_name", sname);
                  ("target_schema_name", tname);
                  ("target_table_name", tname)].

(** Modelled from the spec: the column-aggregate builder of the
    configuration manager, which this module calls and does not define, on a
    count over the selector [*] (handed over as [None], with no type
    filter).  The specification gives a count with [*] a single whole-table
    count spec and Scenario A the aggregate list [[count(all)]]; the
    assembler has already injected that whole-table count when it calls the
    builder, so the builder adds no spec of its own for this selector. *)
Definition star_adds_no_column_aggregate : Prop :=
  forall cm : ConfigManager,
    build_config_column_aggregates cm "count" VNone VNone = Ok [].

(** The claim about malformed documents, in the specification's words:
    building from the document fails with a [SerializationError]. *)
Definition rejects_with_SerializationError (args : Args) (w : World) : Prop :=
  exists e w',
    build_config_managers_from_yaml args w = (Raise e, w')
    /\ is_SerializationError e.

End Statements.

(* ================================================================== *)
(** ** A concrete set of collaborators *)

(** Small stand-ins for the external parts, used to run the module on
  concrete inputs. *)
Module Sample.
Definition dq : string := String (Ascii.ascii_of_nat 34) EmptyString.

(** The text [[{"schema_name": "s", "table_name": "t"}]]. *)
Definition one_table_text : string :=
  "[{" ++ dq ++ "schema_name" ++ dq ++ ": " ++ dq ++ "s" ++ dq ++ ", "
       ++ dq ++ "table_name" ++ dq ++ ": " ++ dq ++ "t" ++ dq ++ "}]".

(** The text of the same list with a second table [u]. *)
Definition two_tables_text : string :=
  "[{" ++ dq ++ "schema_name" ++ dq ++ ": " ++ dq ++ "s" ++ dq ++ ", "
       ++ dq ++ "table_name" ++ dq ++ ": " ++ dq ++ "t" ++ dq ++ "}, {"
       ++ dq ++ "schema_name" ++ dq ++ ": " ++ dq ++ "s" ++ dq ++ ", "
       ++ dq ++ "table_name" ++ dq ++ ": " ++ dq ++ "u" ++ dq ++ "}]".

Definition table (schema_name table_name : string) : value :=
  VDict [("schema_name", VStr schema_name); ("table_name", VStr table_name)].

(** A JSON decoder that knows a few texts. *)
Definition json_loads (text : string) : result value :=
  if String.eqb text "[]" then Ok (VList [])
  else if String.eqb text one_table_text then Ok (VList [table "s" "t"])
  else if String.eqb text two_tables_text then
    Ok (VList [table "s" "t"; table "s" "u"])
  else Raise (mkExn "JSONDecodeError" text).

Fixpoint common_prefix (a b : string) : nat :=
  match a, b with
  | String x a', String y b' =>
      if Ascii.eqb x y then S (common_prefix a' b') else 0
  | _, _ => 0
  end.

(** A normalized string metric: twice the common prefix over the total
    length, 1 for two empty strings. *)
Definition similarity (a b : string) : Q :=
  match (String.length a + String.length b)%nat with
  | O => 1%Q
  | S n => Qmake (Z.of_nat (2 * common_prefix a b)%nat) (Pos.of_succ_nat n)
  end.

(** A stored name resolves to its descriptor, an inline descriptor to
    itself. *)
Definition get_connection (ref : value) (store : dict value) : result value :=
  match ref with
  | VStr name =>
      match dict_get name store with
      | Some conn => Ok conn
      | None => Raise (mkExn "ConnectionError" name)
      end
  | VDict d => Ok (VDict d)
  | _ => Raise (mkExn "ConnectionError" "malformed connection reference")
  end.

Definition get_connection_config_from_args (args : Args) : result value :=
  Ok (VDict [("host", VStr (args_connection_name args))]).

Definition store_connection (name : string) (conn : value)
    (store : dict value) : result (dict value) :=
  Ok (dict_set name conn store).

(** A descriptor whose host is [unreachable] yields no client. *)
Definition get_data_client (conn : value) : result Client :=
  match conn with
  | VDict d =>
      if value_is_str (dict_get "host" d) "unreachable"
      then Raise (mkExn "ConnectionError" "unreachable")
      else Ok (mkClient (Ok []) (fun _ => Ok []))
  | _ => Raise (mkExn "ConnectionError" "malformed descriptor")
  end.

(** The engine fails on a table named [broken]. *)
Definition execute (history : list Event) (cfg : dict value) (verbose : bool)
  : result unit :=
  if value_is_str (dict_get "table_name" cfg) "broken"
  then Raise (mkExn "RuntimeError" "validation failed")
  else Ok tt.

(** A path below the directory [nodir], which does not exist, cannot be
    opened for writing. *)
Definition open_for_writing (path : string) : result unit :=
  if String.prefix "nodir/" path then Raise (FileNotFoundError path)
  else Ok tt.

Definition spec (kind : string) (columns : value) (type_filter : value)
  : value :=
  VDict [("kind", VStr kind); ("columns", columns);
         ("type_filter", type_filter)].

Definition count_all : value := spec "count" (VStr "all") VNone.

(** The aggregate policy of the specification: the selector [*] gives a
    single whole-table spec, an explicit list one spec per listed column.
    Declared column types are not consulted here. *)
Definition build_config_column_aggregates (cm : ConfigManager)
    (kind : string) (columns : value) (type_filter : value)
  : result (list value) :=
  match columns with
  | VNone => Ok [spec kind (VStr "all") type_filter]
  | VList cols => Ok (map (fun c => spec kind c type_filter) cols)
  | _ => Raise (TypeError "column selector is not a list")
  end.

#[export] Instance external : External := {
  json_loads := json_loads;
  json_dumps := fun _ => "[...]";
  similarity := similarity;
  get_connection := get_connection;
  get_connection_config_from_args := get_connection_config_from_args;
  store_connection := store_connection;
  get_data_client := get_data_client;
  execute := execute;
  open_for_writing := open_for_writing;
  build_config_count_aggregate := fun _ => count_all;
  build_config_column_aggregates := build_config_column_aggregates;
  build_config_grouped_columns := fun _ cols => py_iter cols
}.

(** Two stored connections, no files. *)
Definition world : World :=
  mkWorld [("A", VDict [("host", VStr "a.example")]);
           ("B", VDict [("host", VStr "b.example")])]
    [] [] [].

Definition args : Args :=
  mkArgs "run" "list" "C" None "A" "B" one_table_text "Column"
    None None None None false.
End Sample.

Module EnumeratorExample.
(** Two databases of two tables each. *)
Definition tables_of (db : string) : list string :=
  if String.eqb db "sales" then ["orders"; "items"]
  else if String.eqb db "hr" then ["staff"; "roles"]
  else [].

Definition client : Client :=
  mkClient (Ok ["sales"; "hr"]) (fun db => Ok (tables_of db)).
End EnumeratorExample.

Module Scenarios.
Import Sample.

(** Scenario B: source catalog [{s__t1}], target catalog
    [{s__t1, s__t2}]. *)
Definition source_B : dict value := [("s__t1", table_obj_of "s" "t1")].
Definition target_B : dict value :=
  [("s__t1", table_obj_of "s" "t1"); ("s__t2", table_obj_of "s" "t2")].

(** Scenario C: source catalog [{s__orphan}], target catalog
    [{s__other}], cutoff 0.9. *)
Definition source_C : dict value := [("s__orphan", table_obj_of "s" "orphan")].
Definition target_C : dict value := [("s__other", table_obj_of "s" "other")].
Definition cutoff_C : Q := (9 # 10)%Q.
End Scenarios.

Module ScenarioA.
(** Scenario A: connections [A] and [B], one table [s.t], type [Column],
    count [*]. *)
Definition args : Args :=
  mkArgs "run" "list" "C" None "A" "B" Sample.one_table_text "Column"
    (Some "*") None None None false.

Definition after_clients : World :=
  logged (EvGetDataClient (VDict [("host", VStr "b.example")]))
    (logged (EvGetDataClient (VDict [("host", VStr "a.example")]))
       Sample.world).

(** The one configuration Scenario A assembles. *)
Definition assembled : ConfigManager :=
  mkConfigManager
    [("type", VStr "Column");
     ("source_conn", VDict [("host", VStr "a.example")]);
     ("target_conn", VDict [("host", VStr "b.example")]);
     ("schema_name", VStr "s"); ("table_name", VStr "t");
     ("result_handler", VNone);
     ("aggregates", VList [Sample.count_all; Sample.count_all])]
    (mkClient (Ok []) (fun _ => Ok []))
    (mkClient (Ok []) (fun _ => Ok []))
    false.
End ScenarioA.

Module PolicyExample.
(** The collaborators of [Sample], with a column-aggregate builder that
    leaves the whole-table count of the selector [*] to the count the
    assembler injects: no spec for [*], one spec per listed column. *)
Definition build_config_column_aggregates (cm : ConfigManager)
    (kind : string) (columns : value) (type_filter : value)
  : result (list value) :=
  match columns with
  | VNone => Ok []
  | VList cols => Ok (map (fun c => Sample.spec kind c type_filter) cols)
  | _ => Raise (TypeError "column selector is not a list")
  end.

#[export] Instance external : External := {
  json_loads := Sample.json_loads;
  json_dumps := fun _ => "[...]";
  similarity := Sample.similarity;
  get_connection := Sample.get_connection;
  get_connection_config_from_args := Sample.get_connection_config_from_args;
  store_connection := Sample.store_connection;
  get_data_client := Sample.get_data_client;
  execute := Sample.execute;
  open_for_writing := Sample.open_for_writing;
  build_config_count_aggregate := fun _ => Sample.count_all;
  build_config_column_aggregates := build_config_column_aggregates;
  build_config_grouped_columns := fun _ cols => py_iter cols
}.

Definition source_descriptor : value := VDict [("host", VStr "a.example")].
Definition target_descriptor : value := VDict [("host", VStr "b.example")].
Definition client : Client := mkClient (Ok []) (fun _ => Ok []).

(** The one configuration Scenario A assembles with these collaborators. *)
Definition assembled : ConfigManager :=
  mkConfigManager
    [("type", VStr "Column");
     ("source_conn", source_descriptor);
     ("target_conn", target_descriptor);
     ("schema_name", VStr "s"); ("table_name", VStr "t");
     ("result_handler", VNone);
     ("aggregates", VList [Sample.count_all])]
    client client false.
End PolicyExample.

Module HandlerExample.
(** Scenario A with the result-handler flag [[]]. *)
Definition args : Args :=
  mkArgs "run" "list" "C" None "A" "B" Sample.one_table_text "Column"
    (Some "*") None None (Some "[]") false.

Definition assembled : ConfigManager :=
  mkConfigManager
    [("type", VStr "Column");
     ("source_conn", VDict [("host", VStr "a.example")]);
     ("target_conn", VDict [("host", VStr "b.example")]);
     ("schema_name", VStr "s"); ("table_name", VStr "t");
     ("result_handler", VList []);
     ("aggregates", VList [Sample.count_all; Sample.count_all])]
    (mkClient (Ok []) (fun _ => Ok []))
    (mkClient (Ok []) (fun _ => Ok []))
    false.
End HandlerExample.

Module RunnerExample.
Definition good (t : string) : ConfigManager :=
  mkConfigManager [("type", VStr "Column"); ("table_name", VStr t)]
    (mkClient (Ok []) (fun _ => Ok [])) (mkClient (Ok []) (fun _ => Ok []))
    false.
End RunnerExample.

Module ConnectionsExample.
(** [connections add] of a descriptor whose host cannot be reached. *)
Definition args : Args :=
  mkArgs "connections" "add" "unreachable" None "A" "B" "[]" "Column"
    None None None None false.

Definition conn : value := VDict [("host", VStr "unreachable")].
End ConnectionsExample.

Module EmptyTablesExample.
(** [run --config-file out.yaml] with the tables list [[]]. *)
Definition args : Args :=
  mkArgs "run" "list" "C" (Some "out.yaml") "A" "B" "[]" "Column"
    None None None None false.
End EmptyTablesExample.

Module MissingKeysExample.
(** [run-config --config-file bad.yaml] where the file holds the empty
    mapping. *)
Definition args : Args :=
  mkArgs "run-config" "list" "C" (Some "bad.yaml") "A" "B" "[]" "Column"
    None None None None false.

Definition world : World :=
  mkWorld (conn_store Sample.world) [("bad.yaml", VDict [])] [] [].
End MissingKeysExample.

Module RoundTripExample.
(** [run --config-file out.yaml] on two tables with count [*], then
    [run-config --config-file out.yaml]. *)
Definition args : Args :=
  mkArgs "run" "list" "C" (Some "out.yaml") "A" "B" Sample.two_tables_text
    "Column" (Some "*") None None None false.

Definition args' : Args :=
  mkArgs "run-config" "list" "C" (Some "out.yaml") "A" "B" "[]" "Column"
    None None None None true.

Definition assembled : list ConfigManager :=
  match fst (build_config_managers_from_args (H := Sample.external)
               args Sample.world) with
  | Ok cms => cms
  | Raise _ => []
  end.
End RoundTripExample.

(* ================================================================== *)
(** ** Notions used for the rest of the module *)

(** The calls that neither run a validation nor store a connection. *)
Definition not_mutating (ev : Event) : Prop :=
  match ev with
  | EvGetDataClient _ | EvListConnections => True
  | EvStoreConnection _ _ | EvExecute _ _ => False
  end.

(** Every run of [m] takes a world to one that [R] relates to it. *)
Definition respects {A} (R : World -> World -> Prop) (m : M A) : Prop :=
  forall w, R w (snd (m w)).

(** The steps every command may take under [R]: doing nothing, one step
    after another, acquiring a client, listing the connections and
    printing. *)
Definition allows_reading (R : World -> World -> Prop) : Prop :=
  (forall w, R w w)
  /\ (forall w1 w2 w3, R w1 w2 -> R w2 w3 -> R w1 w3)
  /\ (forall ev w, not_mutating ev -> R w (logged ev w))
  /\ (forall line w, R w (snd (print line w))).

Definition same_store (w w' : World) : Prop := conn_store w' = conn_store w.

Definition same_files (w w' : World) : Prop := files w' = files w.

(** The external calls made from [w] to [w'] all satisfy [Q]. *)
Definition calls_extended (Q : Event -> Prop) (w w' : World) : Prop :=
  exists evs, calls w' = calls w ++ evs /\ Forall Q evs.

Definition is_acquisition (ev : Event) : Prop :=
  exists conn, ev = EvGetDataClient conn.

Definition not_execute (ev : Event) : Prop :=
  forall cfg verbose, ev <> EvExecute cfg verbose.

Definition not_store (ev : Event) : Prop :=
  forall name conn, ev <> EvStoreConnection name conn.

(** The configuration the YAML path builds from a block that is a mapping:
    the shared connections and the shared result handler are assigned over
    whatever the block holds under those keys. *)
Definition injected (sconn tconn rh : value) (sclient tclient : Client)
    (verbose : bool) (block : dict value) : ConfigManager :=
  mkConfigManager
    (dict_set CONFIG_RESULT_HANDLER rh
       (dict_set CONFIG_TARGET_CONN tconn
          (dict_set CONFIG_SOURCE_CONN sconn block)))
    sclient tclient verbose.

(** [f] applied to every value of a dictionary. *)
Definition map_values {A B} (f : A -> B) (d : dict A) : dict B :=
  map (fun kv => (fst kv, f (snd kv))) d.

(** The entries of a mapping once it went through a file. *)
Definition stored_entries (d : dict value) : dict value :=
  sort_entries (map_values dumped_and_loaded d).

(** The configuration the YAML path builds from the stored block of [cm]. *)
Definition reloaded (sconn tconn rh : value) (sclient tclient : Client)
    (verbose : bool) (cm : ConfigManager) : ConfigManager :=
  injected sconn tconn rh sclient tclient verbose
    (stored_entries
       (filter
          (fun kv => negb (existsb (String.eqb (fst kv)) document_level_keys))
          (config cm))).

(** What the round trip through a file preserves: the validation type, the
    number of aggregates, the connections, and every field up to the order
    of the keys inside its mappings. *)
Definition same_configuration (cm cm' : ConfigManager) : Prop :=
  validation_type cm' = validation_type cm
  /\ length (aggregates cm') = length (aggregates cm)
  /\ aggregates cm' = map dumped_and_loaded (aggregates cm)
  /\ source_conn cm' = source_conn cm
  /\ target_conn cm' = target_conn cm
  /\ result_handler_config cm'
     = dumped_and_loaded (result_handler_config cm)
  /\ forall k, ~ In k document_level_keys ->
       dict_get k (config cm')
       = option_map dumped_and_loaded (dict_get k (config cm)).

(** The world after a document was written to [path]. *)
Definition written (path : string) (doc : value) (w : World) : World :=
  mkWorld (conn_store w) (dict_set path doc (files w)) (calls w) (stdout w).

(** The document the codec writes for a non-empty list of configurations. *)
Definition document_of (args : Args) (first : ConfigManager)
    (rest : list ConfigManager) : value :=
  VDict [("source", VStr (args_source_conn args));
         ("target", VStr (args_target_conn args));
         ("result_handler", result_handler_config first);
         ("validations",
           VList (map get_yaml_validation_block (first :: rest)))].

(** The same arguments with another [--grouped-columns]. *)
Definition with_grouped_columns (g : option string) (args : Args) : Args :=
  mkArgs (args_command args) (args_connect_cmd args)
    (args_connection_name args) (args_config_file args)
    (args_source_conn args) (args_target_conn args) (args_tables_list args)
    (args_type args) (args_count args) (args_sum args) g
    (args_result_handler_config args) (args_verbose args).

(** The message of [main] and of [run_connections] for a command they do
    not know. *)
Definition unsupported (what cmd : string) : exn :=
  ValueError (what ++ " Argument '" ++ cmd ++ "' is not supported").

(** The dictionary after the items were assigned to it one after another. *)
Definition store_all {V} (items : list (string * V)) (d : dict V) : dict V :=
  fold_left (fun d kv => dict_set (fst kv) (snd kv) d) items d.

(** The composite keys of a list of (database, table) pairs. *)
Definition pair_keys (pairs : list (string * string)) : list string :=
  map (fun p => table_key (fst p) (snd p)) pairs.

Module AssemblerExample.
(** Both metric flags with the selector [*]; a count flag that is no JSON;
    a base configuration of type [GroupedColumn] and one of type
    [Column]. *)
Definition args_both : Args :=
  mkArgs "run" "list" "C" None "A" "B" Sample.one_table_text "Column"
    (Some "*") (Some "*") None None false.

Definition args_bad_count : Args :=
  mkArgs "run" "list" "C" None "A" "B" Sample.one_table_text "Column"
    (Some "oops") None None None false.

Definition no_client : Client := mkClient (Ok []) (fun _ => Ok []).

Definition grouped : ConfigManager :=
  build_config_manager "GroupedColumn" (VStr "a") (VStr "b")
    no_client no_client (Sample.table "s" "t") VNone false.

Definition column : ConfigManager :=
  build_config_manager "Column" (VStr "a") (VStr "b")
    no_client no_client (Sample.table "s" "t") VNone false.
End AssemblerExample.

Module YamlExample.
(** A document with two blocks, the first of which holds a stale
    [source_conn] of its own, and a document whose second block is a
    string. *)
Definition block_t : dict value :=
  [("type", VStr "Column"); ("table_name", VStr "t");
   ("source_conn", VStr "stale")].

Definition block_u : dict value :=
  [("type", VStr "Column"); ("table_name", VStr "u")].

Definition good : dict value :=
  [("source", VStr "A"); ("target", VStr "B"); ("result_handler", VNone);
   ("validations", VList [VDict block_t; VDict block_u])].

Definition bad : dict value :=
  [("source", VStr "A"); ("target", VStr "B"); ("result_handler", VNone);
   ("validations", VList [VDict block_t; VStr "oops"; VDict block_u])].

Definition world : World :=
  mkWorld (conn_store Sample.world)
    [("good.yaml", VDict good); ("bad.yaml", VDict bad)] [] [].

Definition args (path : string) : Args :=
  mkArgs "run-config" "list" "C" (Some path) "A" "B" "[]" "Column"
    None None None None false.

Definition conn_A : value := VDict [("host", VStr "a.example")].
Definition conn_B : value := VDict [("host", VStr "b.example")].
End YamlExample.

Module EndToEndExample.
(** [run] on two tables without a configuration file, and [run-config] on
    the document [good.yaml]. *)
Definition args : Args :=
  mkArgs "run" "list" "C" None "A" "B" Sample.two_tables_text "Column"
    None None None None false.

Definition assembled : list ConfigManager :=
  match fst (build_config_managers_from_args (H := Sample.external)
               args Sample.world) with
  | Ok cms => cms
  | Raise _ => []
  end.

Definition loaded : list ConfigManager :=
  map (injected YamlExample.conn_A YamlExample.conn_B VNone
         AssemblerExample.no_client AssemblerExample.no_client false)
    [YamlExample.block_t; YamlExample.block_u].

Definition after_clients : World :=
  logged (EvGetDataClient YamlExample.conn_B)
    (logged (EvGetDataClient YamlExample.conn_A) YamlExample.world).
End EndToEndExample.

Module CollisionExample.
(** Two databases whose only tables have the same composite key
    [a__b__c]. *)
Definition tables_of (db : string) : list string :=
  if String.eqb db "a__b" then ["c"]
  else if String.eqb db "a" then ["b__c"]
  else [].

Definition client : Client :=
  mkClient (Ok ["a__b"; "a"]) (fun db => Ok (tables_of db)).

(** A client whose second database cannot be listed. *)
Definition failing : Client :=
  mkClient (Ok ["sales"; "hr"; "ops"])
    (fun db => if String.eqb db "hr"
               then Raise (mkExn "PermissionError" "hr")
               else Ok ["t"]).
End CollisionExample.

Module FindTablesExample.
(** Two connections whose clients list one schema each: [s.t1] on the
    source side, [s.t1] and [s.t2] on the target side. *)
Definition source_client : Client :=
  mkClient (Ok ["s"]) (fun _ => Ok ["t1"]).

Definition target_client : Client :=
  mkClient (Ok ["s"]) (fun _ => Ok ["t1"; "t2"]).

#[export] Instance external : External := {
  json_loads := Sample.json_loads;
  json_dumps := fun _ => "[...]";
  similarity := Sample.similarity;
  get_connection := Sample.get_connection;
  get_connection_config_from_args := Sample.get_connection_config_from_args;
  store_connection := Sample.store_connection;
  get_data_client := fun conn =>
    if value_is_str (Some conn) "source" then Ok source_client
    else Ok target_client;
  execute := Sample.execute;
  open_for_writing := Sample.open_for_writing;
  build_config_count_aggregate := fun _ => Sample.count_all;
  build_config_column_aggregates := Sample.build_config_column_aggregates;
  build_config_grouped_columns := fun _ cols => py_iter cols
}.

Definition world : World :=
  mkWorld [("A", VStr "source"); ("B", VStr "target")] [] [] [].

Definition args : Args :=
  mkArgs "find-tables" "list" "C" None "A" "B" "[]" "Column"
    None None None None false.
End FindTablesExample.

(* ================================================================== *)
(** ** Dictionary facts *)

Section DictFacts.
Context {V : Type}.
Implicit Types (d : dict V) (k : string) (v : V).

Lemma dict_get_set_same k v d : dict_get k (dict_set k v d) = Some v.
Proof.
  induction d as [|[k' v'] d IH]; simpl.
  - now rewrite String.eqb_refl.
  - destruct (String.eqb k k') eqn:E; simpl; rewrite ?String.eqb_refl, ?E; auto.
Qed.

Lemma dict_get_set_other k k' v d :
  k <> k' -> dict_get k (dict_set k' v d) = dict_get k d.
Proof.
  intros Hne. induction d as [|[k0 v0] d IH]; simpl.
  - apply String.eqb_neq in Hne. now rewrite Hne.
  - destruct (String.eqb k' k0) eqn:E; simpl.
    + apply String.eqb_eq in E. subst k0.
      apply String.eqb_neq in Hne. now rewrite Hne.
    + now rewrite IH.
Qed.

Lemma dict_get_None_keys k d : dict_get k d = None <-> ~ In k (dict_keys d).
Proof.
  induction d as [|[k' v'] d IH]; simpl.
  - tauto.
  - destruct (String.eqb k k') eqn:E.
    + apply String.eqb_eq in E. subst. split; [discriminate | tauto].
    + apply String.eqb_neq in E. rewrite IH. split; [|tauto].
      intros Hn [Heq | Hin]; [congruence | tauto].
Qed.

Lemma dict_get_In k v d : dict_get k d = Some v -> In (k, v) d.
Proof.
  induction d as [|[k' v'] d IH]; simpl; [discriminate|].
  destruct (String.eqb k k') eqn:E.
  - apply String.eqb_eq in E. intros [= ->]. subst. now left.
  - auto.
Qed.

Lemma dict_get_of_In k v d :
  In (k, v) d -> exists v', dict_get k d = Some v' /\ In (k, v') d.
Proof.
  induction d as [|[k' v'] d IH]; simpl; [tauto|].
  intros Hin. destruct (String.eqb k k') eqn:E.
  - apply String.eqb_eq in E. subst. eauto.
  - destruct Hin as [Heq | Hin].
    + inversion Heq; subst. now rewrite String.eqb_refl in E.
    + destruct (IH Hin) as (v0 & Hg & Hi). eauto.
Qed.

Lemma dict_get_NoDup_In k v d :
  NoDup (dict_keys d) -> In (k, v) d -> dict_get k d = Some v.
Proof.
  induction d as [|[k' v'] d IH]; simpl; [tauto|].
  intros Hnd Hin. inversion Hnd as [|? ? Hni Hnd']; subst.
  destruct Hin as [Heq | Hin].
  - inversion Heq; subst. now rewrite String.eqb_refl.
  - destruct (String.eqb k k') eqn:E.
    + apply String.eqb_eq in E. subst. exfalso. apply Hni.
      unfold dict_keys. change k' with (fst (k', v)). now apply in_map.
    + auto.
Qed.

(** Assigning to a key that is not present appends the entry. *)
Lemma dict_set_fresh k v d :
  ~ In k (dict_keys d) -> dict_set k v d = d ++ [(k, v)].
Proof.
  induction d as [|[k' v'] d IH]; simpl; intros Hni; [reflexivity|].
  destruct (String.eqb k k') eqn:E.
  - apply String.eqb_eq in E. subst. tauto.
  - rewrite IH; tauto.
Qed.

Lemma dict_get_filter (keep : string -> bool) k d :
  dict_get k (filter (fun kv => keep (fst kv)) d)
  = if keep k then dict_get k d else None.
Proof.
  induction d as [|[k' v'] d IH]; simpl.
  - now destruct (keep k).
  - destruct (keep k') eqn:Ek'; simpl.
    + destruct (String.eqb k k') eqn:E.
      * apply String.eqb_eq in E. subst. now rewrite Ek'.
      * exact IH.
    + rewrite IH. destruct (String.eqb k k') eqn:E; [|reflexivity].
      apply String.eqb_eq in E. subst. now rewrite Ek'.
Qed.
End DictFacts.

Lemma rbind_Ok {A B} (m : result A) (k : A -> result B) (b : B) :
  rbind m k = Ok b -> exists a, m = Ok a /\ k a = Ok b.
Proof. destruct m; simpl; [eauto | discriminate]. Qed.

Lemma map_result_length {A B} (f : A -> result B) (l : list A) (out : list B) :
  map_result f l = Ok out -> length out = length l.
Proof.
  revert out. induction l as [|x l IH]; simpl; intros out Hm.
  - now inversion Hm.
  - apply rbind_Ok in Hm as (y & _ & Hm).
    apply rbind_Ok in Hm as (ys & Hys & Hm).
    inversion Hm; subst. simpl. f_equal. auto.
Qed.

Lemma map_result_Forall2 {A B} (f : A -> result B) (l : list A) (out : list B) :
  map_result f l = Ok out <-> Forall2 (fun x y => f x = Ok y) l out.
Proof.
  revert out. induction l as [|x l IH]; simpl; intros out; split.
  - intros [= <-]. constructor.
  - intros Hf. now inversion Hf.
  - intros Hm. apply rbind_Ok in Hm as (y & Hy & Hm).
    apply rbind_Ok in Hm as (ys & Hys & Hm).
    inversion Hm; subst. constructor; [assumption | now apply IH].
  - intros Hf. inversion Hf as [|? y ? ys Hy Hys]; subst.
    rewrite Hy. simpl. apply IH in Hys. now rewrite Hys.
Qed.

(* ================================================================== *)
(** ** Table Catalog Enumerator *)

Section Enumerator.
Variable client : Client.
Variable tables_of : string -> list string.

Lemma enumerate_tables_fresh database_name tables : forall table_map,
  NoDup (dict_keys table_map ++ map (table_key database_name) tables) ->
  enumerate_tables database_name table_map tables
  = Ok (table_map ++ map catalog_entry (map (pair database_name) tables)).
Proof.
  unfold enumerate_tables.
  induction tables as [|t ts IH]; simpl; intros m Hnd.
  - now rewrite app_nil_r.
  - assert (Hfresh : ~ In (table_key database_name t) (dict_keys m)).
    { apply NoDup_remove_2 in Hnd. intros Hin. apply Hnd.
      apply in_or_app. now left. }
    rewrite (dict_set_fresh _ _ _ Hfresh), IH.
    + now rewrite <- app_assoc.
    + unfold dict_keys in *. rewrite map_app. simpl.
      rewrite <- app_assoc. exact Hnd.
Qed.

Lemma enumerate_databases_fresh dbs : forall table_map,
  (forall db, In db dbs -> list_tables client db = Ok (tables_of db)) ->
  NoDup (dict_keys table_map
           ++ map (fun p => table_key (fst p) (snd p)) (catalog_pairs tables_of dbs)) ->
  fold_result
    (fun table_map database_name =>
       (tables <- list_tables client database_name ;;
        fold_result
          (fun table_map table_name =>
             Ok (dict_set (table_key database_name table_name)
                   (table_obj_of database_name table_name) table_map))
          tables table_map)%result)
    dbs table_map
  = Ok (table_map ++ map catalog_entry (catalog_pairs tables_of dbs)).
Proof.
  induction dbs as [|db dbs IH]; simpl; intros m Hts Hnd.
  - now rewrite app_nil_r.
  - rewrite (Hts db (or_introl eq_refl)). simpl.
    rewrite map_app, app_assoc in Hnd.
    assert (Hkeys : map (fun p => table_key (fst p) (snd p))
                      (map (pair db) (tables_of db))
                    = map (table_key db) (tables_of db)).
    { rewrite map_map. reflexivity. }
    rewrite Hkeys in Hnd.
    pose proof (enumerate_tables_fresh db (tables_of db) m) as Hinner.
    unfold enumerate_tables in Hinner. rewrite Hinner.
    + simpl. rewrite IH.
      * now rewrite map_app, app_assoc.
      * intros db' Hin. apply Hts. now right.
      * unfold dict_keys in *. rewrite map_app, !map_map. simpl.
        rewrite map_map in Hkeys. simpl in Hkeys.
        exact Hnd.
    + eapply NoDup_app_remove_r. exact Hnd.
Qed.
End Enumerator.

Lemma catalog_pairs_length (tables_of : string -> list string) (T : nat)
    (dbs : list string) :
  (forall db, In db dbs -> length (tables_of db) = T) ->
  length (catalog_pairs tables_of dbs) = length dbs * T.
Proof.
  induction dbs as [|db dbs IH]; simpl; intros HT; [reflexivity|].
  rewrite length_app, length_map, IH, (HT db); auto.
Qed.

Lemma catalog_pairs_In (tables_of : string -> list string) (dbs : list string)
    (db t : string) :
  In db dbs -> In t (tables_of db) -> In (db, t) (catalog_pairs tables_of dbs).
Proof.
  intros Hdb Ht. unfold catalog_pairs. apply in_flat_map.
  exists db. split; [assumption | now apply in_map].
Qed.

Lemma table_obj_of_eq (database_name table_name : string) :
  table_obj_of database_name table_name
  = VDict [("schema_name", VStr database_name); ("table_name", VStr table_name)].
Proof. reflexivity. Qed.

(** C5.  For a client that lists [D] databases with [T] tables each, all
    composite keys distinct, the enumerator returns a map with exactly
    [D * T] entries and unique keys: one entry per (database, table) pair, in
    enumeration order, keyed [{schema}__{table}] and holding the descriptor
    with that schema name and table name. *)
Theorem enumerator_one_entry_per_pair
    (client : Client) (tables_of : string -> list string)
    (dbs : list string) (D T : nat) :
  list_databases client = Ok dbs ->
  (forall db, In db dbs -> list_tables client db = Ok (tables_of db)) ->
  length dbs = D ->
  (forall db, In db dbs -> length (tables_of db) = T) ->
  NoDup (map (fun p => table_key (fst p) (snd p)) (catalog_pairs tables_of dbs)) ->
  exists table_map,
    _get_all_tables_from_client client = Ok table_map
    /\ length table_map = D * T
    /\ NoDup (dict_keys table_map)
    /\ table_map = map catalog_entry (catalog_pairs tables_of dbs)
    /\ (forall db t, In db dbs -> In t (tables_of db) ->
          dict_get (db ++ "__" ++ t) table_map
          = Some (VDict [("schema_name", VStr db); ("table_name", VStr t)])).
Proof.
  intros Hdbs Htabs HD HT Hnd.
  exists (map catalog_entry (catalog_pairs tables_of dbs)).
  assert (Hkeys : dict_keys (map catalog_entry (catalog_pairs tables_of dbs))
                  = map (fun p => table_key (fst p) (snd p))
                      (catalog_pairs tables_of dbs)).
  { unfold dict_keys. rewrite map_map. reflexivity. }
  split; [|split; [|split; [|split]]].
  - unfold _get_all_tables_from_client. rewrite Hdbs. simpl.
    rewrite (enumerate_databases_fresh client tables_of dbs []); auto.
  - rewrite length_map, (catalog_pairs_length tables_of T) by assumption.
    now rewrite HD.
  - now rewrite Hkeys.
  - reflexivity.
  - intros db t Hdb Ht. apply dict_get_NoDup_In.
    + now rewrite Hkeys.
    + change ((db ++ "__" ++ t)%string, VDict [("schema_name", VStr db); ("table_name", VStr t)])
        with (catalog_entry (db, t)).
      apply in_map. now apply catalog_pairs_In.
Qed.

Lemma enumerator_one_entry_per_pair_witness :
  exists table_map,
    _get_all_tables_from_client EnumeratorExample.client = Ok table_map
    /\ length table_map = 2 * 2
    /\ NoDup (dict_keys table_map)
    /\ table_map
       = map catalog_entry
           (catalog_pairs EnumeratorExample.tables_of ["sales"; "hr"])
    /\ (forall db t, In db ["sales"; "hr"] ->
          In t (EnumeratorExample.tables_of db) ->
          dict_get (db ++ "__" ++ t) table_map
          = Some (VDict [("schema_name", VStr db); ("table_name", VStr t)])).
Proof.
  apply (enumerator_one_entry_per_pair EnumeratorExample.client
           EnumeratorExample.tables_of ["sales"; "hr"] 2 2).
  - reflexivity.
  - intros db _. reflexivity.
  - reflexivity.
  - intros db [<- | [<- | []]]; reflexivity.
  - vm_compute. repeat constructor; simpl; intuition discriminate.
Defined.

(* ================================================================== *)
(** ** Table Matcher *)

Lemma map_result_exists {A B} (f : A -> result B) (P : A -> B -> Prop)
    (l : list A) :
  (forall x, In x l -> exists y, f x = Ok y /\ P x y) ->
  exists out, map_result f l = Ok out /\ Forall2 P l out.
Proof.
  induction l as [|x l IH]; simpl; intros Hall.
  - exists []. split; [reflexivity | constructor].
  - destruct (Hall x (or_introl eq_refl)) as (y & Hy & HP).
    destruct IH as (ys & Hys & HF); [intros x' Hx'; apply Hall; now right|].
    exists (y :: ys). rewrite Hy, Hys. split; [reflexivity | now constructor].
Qed.

Section MatcherFacts.
Context `{External}.

Lemma best_match_spec (search_key : string) (target_list : list string) :
  target_list <> [] ->
  exists t,
    best_match search_key target_list = Some (t, similarity search_key t)
    /\ In t target_list
    /\ forall t', In t' target_list ->
         (similarity search_key t' <= similarity search_key t)%Q.
Proof.
  induction target_list as [|t ts IH]; [congruence|]. intros _.
  simpl. destruct ts as [|t1 ts1].
  - simpl. exists t. split; [reflexivity|]. split; [now left|].
    intros t' [<- | []]. apply Qle_refl.
  - destruct IH as (b & Hb & Hin & Hmax); [discriminate|].
    rewrite Hb.
    destruct (Qle_bool (similarity search_key b) (similarity search_key t))
      eqn:E.
    + apply Qle_bool_iff in E. exists t. split; [reflexivity|].
      split; [now left|]. intros t' [<- | Hin'].
      * apply Qle_refl.
      * eapply Qle_trans; [apply Hmax, Hin' | exact E].
    + exists b. split; [reflexivity|]. split; [now right|].
      intros t' [<- | Hin'].
      * apply Qlt_le_weak. apply Qnot_le_lt. intros Hle.
        apply Qle_bool_iff in Hle. congruence.
      * apply Hmax, Hin'.
Qed.

(** With the cutoff 0 that the matcher passes and a metric that is never
    negative, the closest match is the best-scoring key, whatever its
    score. *)
Lemma extract_closest_match_zero (search_key : string)
    (target_list : list string) (t : string) (s : Q) :
  (forall a b, 0 <= similarity a b)%Q ->
  best_match search_key target_list = Some (t, s) ->
  In t target_list -> s = similarity search_key t ->
  extract_closest_match search_key target_list 0%Q = Some t.
Proof.
  intros Hpos Hb _ ->. unfold extract_closest_match. rewrite Hb.
  destruct (Qle_bool 0 (similarity search_key t)) eqn:E; [reflexivity|].
  exfalso. specialize (Hpos search_key t).
  apply Qle_bool_iff in Hpos. congruence.
Qed.

Lemma In_dict_keys {V} (k : string) (d : dict V) :
  In k (dict_keys d) -> exists v, dict_get k d = Some v /\ In (k, v) d.
Proof.
  unfold dict_keys. intros Hin. apply in_map_iff in Hin as ([k' v] & Hk & Hin).
  simpl in Hk. subst k'. eapply dict_get_of_In; eauto.
Qed.

(** Shape of the result of the table matcher on well-formed table maps. *)
Lemma compare_match_tables_shape (source_table_map target_table_map : dict value) :
  target_table_map <> [] ->
  (forall a b, 0 <= similarity a b)%Q ->
  is_table_map source_table_map ->
  is_table_map target_table_map ->
  exists matches,
    _compare_match_tables source_table_map target_table_map = Ok matches
    /\ Forall2 (paired source_table_map target_table_map)
         (dict_keys source_table_map) matches.
Proof.
  intros Hne Hpos Hsrc Htgt. unfold _compare_match_tables.
  apply map_result_exists. intros k Hk.
  assert (Hkeys : dict_keys target_table_map <> []).
  { destruct target_table_map; [congruence | discriminate]. }
  destruct (best_match_spec k _ Hkeys) as (t & Hb & Hin & Hmax).
  rewrite (extract_closest_match_zero k _ t _ Hpos Hb Hin eq_refl).
  destruct (In_dict_keys _ _ Hk) as (sv & Hsg & Hsin).
  destruct (Hsrc _ _ Hsin) as (sd & sname & -> & Hsname).
  destruct (In_dict_keys _ _ Hin) as (tv & Htg & Htin).
  destruct (Htgt _ _ Htin) as (td & tname & -> & Htname).
  simpl. rewrite Hsg. simpl. rewrite Hsname. simpl.
  rewrite Htg. simpl. rewrite Htname. simpl.
  eexists. split; [reflexivity|].
  exists t, (similarity k t), sd, td, sname, tname.
  repeat split; auto.
Qed.

(** C1, as the code has it.  The matcher takes no cutoff: it asks for the
    closest match with cutoff 0.  On well-formed table maps with a
    non-empty target catalog and a metric that is never negative it
    returns exactly one match per source key, in source order, each paired
    with the best-scoring target key whatever that score is; no source key
    is omitted. *)
Theorem compare_pairs_every_source_key
    (source_table_map target_table_map : dict value) :
  target_table_map <> [] ->
  (forall a b, 0 <= similarity a b)%Q ->
  is_table_map source_table_map ->
  is_table_map target_table_map ->
  exists matches,
    _compare_match_tables source_table_map target_table_map = Ok matches
    /\ length matches = length source_table_map
    /\ Forall2 (paired source_table_map target_table_map)
         (dict_keys source_table_map) matches.
Proof.
  intros Hne Hpos Hsrc Htgt.
  destruct (compare_match_tables_shape _ _ Hne Hpos Hsrc Htgt)
    as (matches & Hm & HF).
  exists matches. split; [assumption|]. split; [|assumption].
  apply Forall2_length in HF. unfold dict_keys in HF.
  now rewrite length_map in HF.
Qed.

(** In every match the matcher returns on well-formed table maps, the
    table-name fields repeat the schema names. *)
Lemma compare_match_tables_table_fields
    (source_table_map target_table_map : dict value) (matches : list value) :
  target_table_map <> [] ->
  (forall a b, 0 <= similarity a b)%Q ->
  is_table_map source_table_map ->
  is_table_map target_table_map ->
  _compare_match_tables source_table_map target_table_map = Ok matches ->
  Forall (fun m => exists d, m = VDict d
            /\ dict_get CONFIG_TABLE_NAME d = dict_get CONFIG_SCHEMA_NAME d
            /\ dict_get CONFIG_TARGET_TABLE_NAME d
               = dict_get CONFIG_TARGET_SCHEMA_NAME d)
    matches.
Proof.
  intros Hne Hpos Hsrc Htgt Hm.
  destruct (compare_match_tables_shape _ _ Hne Hpos Hsrc Htgt)
    as (matches' & Hm' & HF).
  rewrite Hm in Hm'. inversion Hm'; subst matches'. clear Hm Hm'.
  induction HF as [|k m ks ms Hp _ IH]; constructor; [|exact IH].
  destruct Hp as (t & s & sd & td & sname & tname & _ & _ & _ & _ & _ & _ & ->).
  eexists. split; [reflexivity|]. split; reflexivity.
Qed.
End MatcherFacts.

Lemma sample_similarity_nonneg (a b : string) : (0 <= Sample.similarity a b)%Q.
Proof.
  unfold Sample.similarity.
  destruct (String.length a + String.length b)%nat; unfold Qle; simpl; lia.
Qed.

Lemma is_table_map_cons (k db t : string) (m : dict value) :
  is_table_map m -> is_table_map ((k, table_obj_of db t) :: m).
Proof.
  intros Hm k' v [Heq | Hin]; [|eauto].
  inversion Heq; subst. eexists _, _. split; reflexivity.
Qed.

Lemma is_table_map_nil : is_table_map [].
Proof. intros k v []. Qed.

Lemma compare_pairs_every_source_key_witness :
  exists matches,
    _compare_match_tables (H := Sample.external)
      Scenarios.source_C Scenarios.target_C = Ok matches
    /\ length matches = length Scenarios.source_C
    /\ Forall2 (paired (H := Sample.external)
                  Scenarios.source_C Scenarios.target_C)
         (dict_keys Scenarios.source_C) matches.
Proof.
  apply (compare_pairs_every_source_key (H := Sample.external)).
  - discriminate.
  - exact sample_similarity_nonneg.
  - apply is_table_map_cons, is_table_map_nil.
  - apply is_table_map_cons, is_table_map_nil.
Defined.

(** C1 fails as stated.  In Scenario C the only target key scores 8/17
    against the source key, below the cutoff 0.9, yet the matcher returns a
    match for [s__orphan]. *)
Lemma cutoff_contract_counterexample :
  ~ emits_only_above_cutoff (H := Sample.external)
      Scenarios.cutoff_C Scenarios.source_C Scenarios.target_C.
Proof.
  intros Hclaim.
  specialize (Hclaim
    [VDict [("schema_name", VStr "s"); ("table_name", VStr "s");
            ("target_schema_name", VStr "s");
            ("target_table_name", VStr "s")]]
    eq_refl).
  vm_compute in Hclaim. lia.
Qed.

Example scenario_C_best_score :
  best_match (H := Sample.external) "s__orphan" (dict_keys Scenarios.target_C)
  = Some ("s__other", (8 # 17)%Q).
Proof. reflexivity. Qed.

(** C2.  Scenario B: the source table [s.t1] is matched with the target
    table [s.t1], but both table-name fields of the match hold the schema
    name [s] instead of the table name [t1]. *)
Theorem compare_puts_schema_in_table_fields :
  _compare_match_tables (H := Sample.external)
    Scenarios.source_B Scenarios.target_B
  = Ok [VDict [("schema_name", VStr "s"); ("table_name", VStr "s");
               ("target_schema_name", VStr "s");
               ("target_table_name", VStr "s")]]
  /\ extract_closest_match (H := Sample.external)
       "s__t1" (dict_keys Scenarios.target_B) 0%Q = Some "s__t1"
  /\ dict_get "s__t1" Scenarios.target_B
     = Some (VDict [("schema_name", VStr "s"); ("table_name", VStr "t1")])
  /\ VStr "s" <> VStr "t1".
Proof.
  split; [reflexivity|]. split; [reflexivity|]. split; [reflexivity|].
  discriminate.
Qed.

(* ================================================================== *)
(** ** Configuration manager facts *)

Lemma dict_get_fold_set_other {V} (k : string) (items : list (string * V)) :
  forall d : dict V,
  ~ In k (map fst items) ->
  dict_get k (fold_left (fun d kv => dict_set (fst kv) (snd kv) d) items d)
  = dict_get k d.
Proof.
  induction items as [|[k' v'] items IH]; simpl; intros d Hni; [reflexivity|].
  rewrite IH by tauto. apply dict_get_set_other. intros ->. tauto.
Qed.

Lemma table_identity_keys (table_obj : value) (k : string) :
  In k (map fst (table_identity table_obj)) -> In k identity_keys.
Proof.
  unfold table_identity.
  destruct table_obj; try (intros Hf; now destruct Hf).
  intros Hin. apply in_map_iff in Hin as ([k' v] & <- & Hin).
  apply filter_In in Hin as [_ Hex]. apply existsb_exists in Hex.
  destruct Hex as (x & Hx & Heq). apply String.eqb_eq in Heq.
  cbn [fst] in *. now subst.
Qed.

Section BaseConfig.
Variables (config_type : string) (sconn tconn : value)
          (sclient tclient : Client) (table_obj rhc : value) (verbose : bool).

Local Abbreviation base :=
  (build_config_manager config_type sconn tconn sclient tclient
     table_obj rhc verbose).

Lemma base_config_get (k : string) :
  ~ In k identity_keys -> k <> CONFIG_RESULT_HANDLER ->
  dict_get k (config base)
  = dict_get k [(CONFIG_TYPE, VStr config_type);
                (CONFIG_SOURCE_CONN, sconn); (CONFIG_TARGET_CONN, tconn)].
Proof.
  intros Hid Hrh. unfold build_config_manager, dict_literal. simpl config.
  rewrite dict_get_fold_set_other; [reflexivity|].
  rewrite map_app. intros Hin. apply in_app_or in Hin as [Hin | Hin].
  - apply Hid. eapply table_identity_keys. exact Hin.
  - simpl in Hin. destruct Hin as [Heq | []]. congruence.
Qed.

Lemma base_validation_type : validation_type base = Some (VStr config_type).
Proof.
  unfold validation_type. rewrite base_config_get; [reflexivity | |discriminate].
  simpl. intuition discriminate.
Qed.

Lemma base_source_conn : source_conn base = Some sconn.
Proof.
  unfold source_conn. rewrite base_config_get; [reflexivity | |discriminate].
  simpl. intuition discriminate.
Qed.

Lemma base_target_conn : target_conn base = Some tconn.
Proof.
  unfold target_conn. rewrite base_config_get; [reflexivity | |discriminate].
  simpl. intuition discriminate.
Qed.

Lemma base_aggregates : aggregates base = [].
Proof.
  unfold aggregates. rewrite base_config_get; [reflexivity | |discriminate].
  simpl. intuition discriminate.
Qed.

Lemma base_result_handler_config : result_handler_config base = rhc.
Proof.
  unfold result_handler_config, build_config_manager, dict_literal.
  simpl config. rewrite fold_left_app. simpl.
  now rewrite dict_get_set_same.
Qed.
End BaseConfig.

Lemma aggregates_append_aggregates (cm : ConfigManager) (specs : list value) :
  aggregates (append_aggregates cm specs) = aggregates cm ++ specs.
Proof.
  unfold append_aggregates, set_config, aggregates at 1. simpl.
  now rewrite dict_get_set_same.
Qed.

Lemma aggregates_append_query_groups (cm : ConfigManager) (specs : list value) :
  aggregates (append_query_groups cm specs) = aggregates cm.
Proof.
  unfold append_query_groups, set_config, aggregates. simpl.
  rewrite dict_get_set_other; [reflexivity | discriminate].
Qed.

(** Appending aggregates or groups leaves every other field alone. *)
Lemma config_get_append_aggregates (cm : ConfigManager) (specs : list value)
    (k : string) :
  k <> CONFIG_AGGREGATES ->
  dict_get k (config (append_aggregates cm specs)) = dict_get k (config cm).
Proof. intros Hk. simpl. now apply dict_get_set_other. Qed.

Lemma config_get_append_query_groups (cm : ConfigManager) (specs : list value)
    (k : string) :
  k <> CONFIG_GROUPED_COLUMNS ->
  dict_get k (config (append_query_groups cm specs)) = dict_get k (config cm).
Proof. intros Hk. simpl. now apply dict_get_set_other. Qed.

Lemma bind_Ok {A B} (m : M A) (k : A -> M B) (w w' : World) (b : B) :
  bind m k w = (Ok b, w') ->
  exists a w1, m w = (Ok a, w1) /\ k a w1 = (Ok b, w').
Proof.
  unfold bind. destruct (m w) as [[a | e] w1]; [eauto | discriminate].
Qed.

Lemma lift_Ok {A} (r : result A) (w w' : World) (a : A) :
  lift r w = (Ok a, w') -> r = Ok a /\ w' = w.
Proof. unfold lift. intros [= -> ->]. auto. Qed.

(* ================================================================== *)
(** ** Aggregate Config Assembler *)

Section Assembler.
Context `{External}.

(** The list the assembler returns always starts with the full-table
    count. *)
Lemma get_aggregate_config_head (args : Args) (cm : ConfigManager)
    (specs : list value) :
  get_aggregate_config args cm = Ok specs ->
  exists rest, specs = build_config_count_aggregate cm :: rest.
Proof.
  unfold get_aggregate_config. intros Hg.
  apply rbind_Ok in Hg as (l1 & H1 & Hg).
  apply rbind_Ok in Hg as (l2 & H2 & Hg). inversion Hg; subst l2. clear Hg.
  assert (Hl1 : exists r1, l1 = build_config_count_aggregate cm :: r1).
  { destruct (args_count args) as [count|]; [|inversion H1; eauto].
    destruct (truthy (Some count)); [|inversion H1; eauto].
    apply rbind_Ok in H1 as (c & _ & H1).
    apply rbind_Ok in H1 as (more & _ & H1). inversion H1. eauto. }
  destruct Hl1 as (r1 & ->).
  destruct (args_sum args) as [sum|]; [|inversion H2; eauto].
  destruct (truthy (Some sum)); [|inversion H2; eauto].
  apply rbind_Ok in H2 as (c & _ & H2).
  apply rbind_Ok in H2 as (more & _ & H2). inversion H2. simpl. eauto.
Qed.

(** With no metric flag the assembler returns the full-table count
    alone. *)
Lemma get_aggregate_config_no_flags (args : Args) (cm : ConfigManager) :
  truthy (args_count args) = false -> truthy (args_sum args) = false ->
  get_aggregate_config args cm = Ok [build_config_count_aggregate cm].
Proof.
  unfold get_aggregate_config. intros Hc Hs.
  destruct (args_count args); destruct (args_sum args);
    rewrite ?Hc, ?Hs; reflexivity.
Qed.


Lemma build_config_from_args_aggregates (args : Args)
    (cm cm' : ConfigManager) :
  build_config_from_args args cm = Ok cm' ->
  exists specs,
    get_aggregate_config args cm = Ok specs
    /\ aggregates cm' = aggregates cm ++ specs.
Proof.
  unfold build_config_from_args. intros Hb.
  apply rbind_Ok in Hb as (specs & Hs & Hb). exists specs.
  split; [assumption|].
  destruct (value_is_str _ _).
  - apply rbind_Ok in Hb as (g & _ & Hb).
    apply rbind_Ok in Hb as (groups & _ & Hb). inversion Hb.
    now rewrite aggregates_append_query_groups, aggregates_append_aggregates.
  - inversion Hb. now rewrite aggregates_append_aggregates.
Qed.

(** Fields other than the aggregates and the group columns pass through
    the assembly unchanged. *)
Lemma build_config_from_args_get (args : Args) (cm cm' : ConfigManager)
    (k : string) :
  build_config_from_args args cm = Ok cm' ->
  k <> CONFIG_AGGREGATES -> k <> CONFIG_GROUPED_COLUMNS ->
  dict_get k (config cm') = dict_get k (config cm).
Proof.
  unfold build_config_from_args. intros Hb Ha Hg.
  apply rbind_Ok in Hb as (specs & Hs & Hb).
  destruct (value_is_str _ _).
  - apply rbind_Ok in Hb as (g & _ & Hb).
    apply rbind_Ok in Hb as (groups & _ & Hb). inversion Hb.
    rewrite config_get_append_query_groups by assumption.
    now apply config_get_append_aggregates.
  - inversion Hb. now apply config_get_append_aggregates.
Qed.

Lemma resolve_connection_Ok (ref conn : value) (w w' : World) :
  resolve_connection ref w = (Ok conn, w') ->
  get_connection ref (conn_store w) = Ok conn /\ w' = w.
Proof. unfold resolve_connection. intros [= -> ->]. auto. Qed.

Lemma acquire_client_Ok (conn : value) (client : Client) (w w' : World) :
  acquire_client conn w = (Ok client, w') ->
  get_data_client conn = Ok client /\ w' = logged (EvGetDataClient conn) w.
Proof.
  unfold acquire_client, bind, log, lift. simpl. intros [= -> <-]. auto.
Qed.

(** What the argument path returns: one manager per table object, each the
    assembly of the base manager built for that table. *)
Lemma build_config_managers_from_args_Ok (args : Args) (w w' : World)
    (cms : list ConfigManager) :
  build_config_managers_from_args args w = (Ok cms, w') ->
  exists sconn tconn rhc sclient tclient tables_list table_objs,
    get_connection (VStr (args_source_conn args)) (conn_store w) = Ok sconn
    /\ get_connection (VStr (args_target_conn args)) (conn_store w) = Ok tconn
    /\ get_data_client sconn = Ok sclient
    /\ get_data_client tconn = Ok tclient
    /\ json_loads (args_tables_list args) = Ok tables_list
    /\ py_iter tables_list = Ok table_objs
    /\ w' = logged (EvGetDataClient tconn) (logged (EvGetDataClient sconn) w)
    /\ Forall2
         (fun table_obj cm =>
            build_config_from_args args
              (build_config_manager (args_type args) sconn tconn
                 sclient tclient table_obj rhc (args_verbose args))
            = Ok cm)
         table_objs cms.
Proof.
  unfold build_config_managers_from_args. intros Hb.
  apply bind_Ok in Hb as (sconn & w1 & Hsrc & Hb).
  apply resolve_connection_Ok in Hsrc as [Hsrc ->].
  apply bind_Ok in Hb as (tconn & w2 & Htgt & Hb).
  apply resolve_connection_Ok in Htgt as [Htgt ->].
  apply bind_Ok in Hb as (rhc & w3 & Hrhc & Hb).
  apply lift_Ok in Hrhc as [_ ->].
  apply bind_Ok in Hb as (sclient & w4 & Hsc & Hb).
  apply acquire_client_Ok in Hsc as [Hsc ->].
  apply bind_Ok in Hb as (tclient & w5 & Htc & Hb).
  apply acquire_client_Ok in Htc as [Htc ->].
  apply bind_Ok in Hb as (tl & w6 & Htl & Hb). apply lift_Ok in Htl as [Htl ->].
  apply bind_Ok in Hb as (objs & w7 & Hit & Hb). apply lift_Ok in Hit as [Hit ->].
  apply lift_Ok in Hb as [Hmap ->].
  exists sconn, tconn, rhc, sclient, tclient, tl, objs.
  repeat (split; [first [assumption | reflexivity]|]).
  now apply map_result_Forall2.
Qed.
End Assembler.

Section AssemblerClaims.
Context `{External}.



(** C4.  Every configuration the argument path assembles carries at least
    one aggregate, whatever the flags: its aggregate list starts with the
    full-table count injected by the assembler. *)
Theorem every_config_carries_an_aggregate (args : Args) (w w' : World)
    (cms : list ConfigManager) :
  build_config_managers_from_args args w = (Ok cms, w') ->
  Forall (fun cm =>
            1 <= length (aggregates cm)
            /\ exists base rest,
                 aggregates cm = build_config_count_aggregate base :: rest)
    cms.
Proof.
  intros Hb.
  apply build_config_managers_from_args_Ok in Hb
    as (sconn & tconn & rhc & sclient & tclient & tl & objs
        & _ & _ & _ & _ & _ & _ & _ & HF).
  induction HF as [|obj cm objs cms Hcm _ IH]; constructor; [|exact IH].
  apply build_config_from_args_aggregates in Hcm as (specs & Hspecs & Hagg).
  apply get_aggregate_config_head in Hspecs as (rest & ->).
  rewrite base_aggregates in Hagg. rewrite Hagg. simpl.
  split; [lia | eauto].
Qed.
End AssemblerClaims.

(** Scenario A assembles one configuration. *)
Lemma scenario_A_run :
  build_config_managers_from_args (H := Sample.external)
    ScenarioA.args Sample.world
  = (Ok [ScenarioA.assembled], ScenarioA.after_clients).
Proof. reflexivity. Qed.

(** The same arguments with no metric flag. *)
Lemma no_flags_run :
  build_config_managers_from_args (H := Sample.external)
    Sample.args Sample.world
  = (Ok [mkConfigManager
           [("type", VStr "Column");
            ("source_conn", VDict [("host", VStr "a.example")]);
            ("target_conn", VDict [("host", VStr "b.example")]);
            ("schema_name", VStr "s"); ("table_name", VStr "t");
            ("result_handler", VNone);
            ("aggregates", VList [Sample.count_all])]
           (mkClient (Ok []) (fun _ => Ok []))
           (mkClient (Ok []) (fun _ => Ok []))
           false],
     ScenarioA.after_clients).
Proof. reflexivity. Qed.

Lemma policy_star_adds_no_column_aggregate :
  star_adds_no_column_aggregate (H := PolicyExample.external).
Proof. intros cm. reflexivity. Qed.

Example scenario_A_policy_run :
  build_config_managers_from_args (H := PolicyExample.external)
    ScenarioA.args Sample.world
  = (Ok [PolicyExample.assembled], ScenarioA.after_clients).
Proof. reflexivity. Qed.


(** Scenario A under that builder: one configuration, whose aggregates are
    the whole-table count alone. *)
Example scenario_A_single_aggregate :
  aggregates PolicyExample.assembled = [Sample.count_all].
Proof. reflexivity. Qed.

(** Under a builder that returns the whole-table spec itself for [*], the
    same run carries that spec after the injected count. *)
Example scenario_A_aggregates :
  aggregates ScenarioA.assembled = [Sample.count_all; Sample.count_all].
Proof. reflexivity. Qed.

Lemma every_config_carries_an_aggregate_witness :
  Forall (fun cm =>
            1 <= length (aggregates cm)
            /\ exists base rest,
                 aggregates cm
                 = build_config_count_aggregate (External := Sample.external)
                     base :: rest)
    [mkConfigManager
       [("type", VStr "Column");
        ("source_conn", VDict [("host", VStr "a.example")]);
        ("target_conn", VDict [("host", VStr "b.example")]);
        ("schema_name", VStr "s"); ("table_name", VStr "t");
        ("result_handler", VNone);
        ("aggregates", VList [Sample.count_all])]
       (mkClient (Ok []) (fun _ => Ok []))
       (mkClient (Ok []) (fun _ => Ok []))
       false].
Proof.
  apply (every_config_carries_an_aggregate (H := Sample.external)
           Sample.args Sample.world ScenarioA.after_clients).
  exact no_flags_run.
Defined.

(* ================================================================== *)
(** ** Validation Runner *)

Section Runner.
Context `{External}.

Lemma run_validations_cons (args : Args) (cm : ConfigManager)
    (cms : list ConfigManager) (w : World) :
  run_validations args (cm :: cms) w
  = match execute (calls w) (config cm) (args_verbose args) with
    | Ok _ => run_validations args cms (logged (execute_event args cm) w)
    | Raise e => (Raise e, logged (execute_event args cm) w)
    end.
Proof.
  unfold run_validations. simpl. unfold bind, run_validation.
  destruct (execute (calls w) (config cm) (args_verbose args));
    reflexivity.
Qed.

(** C8.  The runner calls the engine on a prefix of the list, one call per
    configuration and in list order.  When the run succeeds the prefix is
    the whole list; when it raises, the last call made is the one that
    raised.  Conversely, as soon as an engine call raises, the run raises
    that error and that call is the last one: no later configuration is
    executed.  Nothing else in the world changes. *)
Theorem run_validations_in_order (args : Args) (cms : list ConfigManager) :
  forall w : World,
  exists k,
    k <= length cms
    /\ calls (snd (run_validations args cms w))
       = calls w ++ map (execute_event args) (firstn k cms)
    /\ conn_store (snd (run_validations args cms w)) = conn_store w
    /\ files (snd (run_validations args cms w)) = files w
    /\ (fst (run_validations args cms w) = Ok tt -> k = length cms)
    /\ (forall e, fst (run_validations args cms w) = Raise e ->
          exists j cm,
            k = S j /\ nth_error cms j = Some cm
            /\ execute (calls w ++ map (execute_event args) (firstn j cms))
                 (config cm) (args_verbose args) = Raise e)
    /\ (forall j cm e,
          j < k -> nth_error cms j = Some cm ->
          execute (calls w ++ map (execute_event args) (firstn j cms))
            (config cm) (args_verbose args) = Raise e ->
          fst (run_validations args cms w) = Raise e /\ k = S j).
Proof.
  induction cms as [|cm cms IH]; intros w.
  - exists 0. simpl. rewrite app_nil_r.
    repeat split; auto; try lia. intros e He. discriminate.
  - rewrite run_validations_cons.
    destruct (execute (calls w) (config cm) (args_verbose args)) as [[]|e]
      eqn:Hex.
    + destruct (IH (logged (execute_event args cm) w))
        as (k & Hk & Hcalls & Hstore & Hfiles & Hok & Hraise & Hfast).
      exists (S k). split; [simpl; lia|].
      split; [rewrite Hcalls; simpl; now rewrite <- app_assoc|].
      split; [now rewrite Hstore|]. split; [now rewrite Hfiles|].
      split; [intros Hr; simpl; f_equal; auto|].
      split.
      * intros e He. destruct (Hraise e He) as (j & cm' & -> & Hnth & Hexj).
        exists (S j), cm'. split; [reflexivity|]. split; [assumption|].
        simpl. simpl in Hexj. now rewrite <- app_assoc in Hexj.
      * intros j cm' e Hj Hnth Hexj. destruct j as [|j].
        { simpl in Hnth, Hexj. inversion Hnth; subst cm'.
          rewrite app_nil_r in Hexj. congruence. }
        simpl in Hnth, Hexj.
        destruct (Hfast j cm' e) as [Hr ->]; [lia | assumption | |auto].
        simpl. rewrite <- app_assoc. exact Hexj.
    + exists 1. simpl. split; [lia|]. split; [now destruct cms|].
      split; [reflexivity|]. split; [reflexivity|].
      split; [discriminate|]. split.
      * intros e' [= <-]. exists 0, cm. simpl. rewrite app_nil_r. auto.
      * intros j cm' e' Hj Hnth Hexj.
        assert (j = 0) by lia. subst j. simpl in Hnth, Hexj.
        inversion Hnth; subst cm'. rewrite app_nil_r in Hexj.
        split; [congruence | reflexivity].
Qed.
End Runner.

(** The second of three configurations fails: the third is never
    executed. *)
Example runner_fail_fast :
  run_validations (H := Sample.external) Sample.args
    [RunnerExample.good "t"; RunnerExample.good "broken";
     RunnerExample.good "u"] Sample.world
  = (Raise (mkExn "RuntimeError" "validation failed"),
     logged (EvExecute (config (RunnerExample.good "broken")) false)
       (logged (EvExecute (config (RunnerExample.good "t")) false)
          Sample.world)).
Proof. reflexivity. Qed.

Example runner_all_run :
  calls (snd (run_validations (H := Sample.external) Sample.args
                [RunnerExample.good "t"; RunnerExample.good "u"]
                Sample.world))
  = [EvExecute (config (RunnerExample.good "t")) false;
     EvExecute (config (RunnerExample.good "u")) false].
Proof. reflexivity. Qed.

(* ================================================================== *)
(** ** Connection registry operations *)

Section Connections.
Context `{External}.

(** C9.  For [connections add], the client is acquired from the new
    descriptor first.  If the acquisition raises, the command raises the
    same error, the store operation is not called and the connection store
    is unchanged; if it succeeds, the store operation is the next call. *)
Theorem add_acquires_client_before_storing (args : Args) (w : World)
    (conn : value) :
  args_connect_cmd args = "add" ->
  get_connection_config_from_args args = Ok conn ->
  (forall e, get_data_client conn = Raise e ->
     run_connections args w = (Raise e, logged (EvGetDataClient conn) w)
     /\ conn_store (snd (run_connections args w)) = conn_store w
     /\ calls (snd (run_connections args w))
        = calls w ++ [EvGetDataClient conn])
  /\ (forall client, get_data_client conn = Ok client ->
        calls (snd (run_connections args w))
        = calls w ++ [EvGetDataClient conn;
                      EvStoreConnection (args_connection_name args) conn]).
Proof.
  intros Hcmd Hconn. unfold run_connections. rewrite Hcmd. simpl.
  unfold bind, lift, acquire_client, bind, log, lift. rewrite Hconn. simpl.
  split.
  - intros e He. rewrite He. simpl. auto.
  - intros client Hc. rewrite Hc. unfold persist_connection. simpl.
    destruct (store_connection (args_connection_name args) conn (conn_store w));
      simpl; now rewrite <- app_assoc.
Qed.
End Connections.

Lemma add_acquires_client_before_storing_witness :
  (forall e, get_data_client (External := Sample.external)
               ConnectionsExample.conn = Raise e ->
     run_connections (H := Sample.external) ConnectionsExample.args Sample.world
     = (Raise e, logged (EvGetDataClient ConnectionsExample.conn) Sample.world)
     /\ conn_store (snd (run_connections (H := Sample.external)
                           ConnectionsExample.args Sample.world))
        = conn_store Sample.world
     /\ calls (snd (run_connections (H := Sample.external)
                      ConnectionsExample.args Sample.world))
        = calls Sample.world ++ [EvGetDataClient ConnectionsExample.conn])
  /\ (forall client, get_data_client (External := Sample.external)
                       ConnectionsExample.conn = Ok client ->
        calls (snd (run_connections (H := Sample.external)
                      ConnectionsExample.args Sample.world))
        = calls Sample.world
          ++ [EvGetDataClient ConnectionsExample.conn;
              EvStoreConnection (args_connection_name ConnectionsExample.args)
                ConnectionsExample.conn]).
Proof.
  apply (add_acquires_client_before_storing (H := Sample.external)
           ConnectionsExample.args Sample.world ConnectionsExample.conn).
  - reflexivity.
  - reflexivity.
Defined.

Example add_unreachable_leaves_store :
  run_connections (H := Sample.external) ConnectionsExample.args Sample.world
  = (Raise (mkExn "ConnectionError" "unreachable"),
     logged (EvGetDataClient ConnectionsExample.conn) Sample.world).
Proof. reflexivity. Qed.

(* ================================================================== *)
(** ** YAML Config Codec *)

Section Codec.
Context `{External}.

Lemma convert_config_to_yaml_cons (args : Args) (first : ConfigManager)
    (rest : list ConfigManager) :
  convert_config_to_yaml args (first :: rest)
  = Ok (VDict [("source", VStr (args_source_conn args));
               ("target", VStr (args_target_conn args));
               ("result_handler", result_handler_config first);
               ("validations",
                 VList (map get_yaml_validation_block (first :: rest)))]).
Proof. reflexivity. Qed.

(** C10.  When a configuration file is given and the tables list parses to
    the empty list, the assembly returns no configuration and [run] raises
    an index error while converting: the document is never written. *)
Theorem run_with_config_file_and_no_tables (args : Args) (w w1 : World)
    (cms : list ConfigManager) :
  truthy (args_config_file args) = true ->
  json_loads (args_tables_list args) = Ok (VList []) ->
  build_config_managers_from_args args w = (Ok cms, w1) ->
  cms = []
  /\ convert_config_to_yaml args cms
     = Raise (IndexError "list index out of range")
  /\ run args w = (Raise (IndexError "list index out of range"), w1)
  /\ files w1 = files w.
Proof.
  intros Hfile Htables Hbuild.
  pose proof Hbuild as Hb.
  apply build_config_managers_from_args_Ok in Hb
    as (sconn & tconn & rhc & sclient & tclient & tl & objs
        & _ & _ & _ & _ & Htl & Hit & Hw & HF).
  rewrite Htables in Htl. inversion Htl; subst tl. clear Htl.
  simpl in Hit. inversion Hit; subst objs. clear Hit.
  inversion HF; subst cms.
  split; [reflexivity|]. split; [reflexivity|].
  split; [|now rewrite Hw].
  unfold run, bind. rewrite Hbuild, Hfile.
  unfold store_yaml_config_file, bind, lift, _get_arg_config_file.
  destruct (args_config_file args) as [path|]; [|discriminate].
  rewrite Hfile. reflexivity.
Qed.
End Codec.

Lemma run_with_config_file_and_no_tables_witness :
  @nil ConfigManager = []
  /\ convert_config_to_yaml EmptyTablesExample.args []
     = Raise (IndexError "list index out of range")
  /\ run (H := Sample.external) EmptyTablesExample.args Sample.world
     = (Raise (IndexError "list index out of range"), ScenarioA.after_clients)
  /\ files ScenarioA.after_clients = files Sample.world.
Proof.
  apply (run_with_config_file_and_no_tables (H := Sample.external)
           EmptyTablesExample.args Sample.world ScenarioA.after_clients []).
  - reflexivity.
  - reflexivity.
  - reflexivity.
Defined.

Ltac yaml_branch :=
  eexists _, _; split; [reflexivity|];
  repeat split; intros; repeat split;
  try reflexivity; try discriminate; try congruence.

Section YamlPath.
Context `{External}.

(** The YAML path on a configuration file that holds a mapping, step by
    step. *)
Lemma build_config_managers_from_yaml_steps (args : Args) (w : World)
    (path : string) (d : dict value) :
  args_config_file args = Some path ->
  truthy (Some path) = true ->
  dict_get path (files w) = Some (VDict d) ->
  build_config_managers_from_yaml args w
  = match dict_get YAML_SOURCE d with
    | None => (Raise (KeyError "source"), w)
    | Some sref =>
    match get_connection sref (conn_store w) with
    | Raise e => (Raise e, w)
    | Ok sconn =>
    match dict_get YAML_TARGET d with
    | None => (Raise (KeyError "target"), w)
    | Some tref =>
    match get_connection tref (conn_store w) with
    | Raise e => (Raise e, w)
    | Ok tconn =>
    match get_data_client sconn with
    | Raise e => (Raise e, logged (EvGetDataClient sconn) w)
    | Ok sclient =>
    let w2 := logged (EvGetDataClient tconn)
                (logged (EvGetDataClient sconn) w) in
    match get_data_client tconn with
    | Raise e => (Raise e, w2)
    | Ok tclient =>
    match dict_get YAML_VALIDATIONS d with
    | None => (Raise (KeyError "validations"), w2)
    | Some validations =>
    match py_iter validations with
    | Raise e => (Raise e, w2)
    | Ok blocks =>
        (map_result
           (config_manager_of_block args (VDict d) sconn tconn
              sclient tclient)
           blocks, w2)
    end end end end end end end end.
Proof.
  intros Hfile Htruthy Hdoc.
  unfold build_config_managers_from_yaml, _get_arg_config_file,
    _get_yaml_config_from_file, resolve_connection, acquire_client.
  unfold bind, lift, log. rewrite Hfile, Htruthy, Hdoc. simpl.
  destruct (dict_get YAML_SOURCE d) as [sref|]; [|reflexivity].
  destruct (get_connection sref (conn_store w)) as [sconn|e]; [|reflexivity].
  destruct (dict_get YAML_TARGET d) as [tref|]; [|reflexivity].
  destruct (get_connection tref (conn_store w)) as [tconn|e]; [|reflexivity].
  destruct (get_data_client sconn) as [sclient|e]; [|reflexivity].
  destruct (get_data_client tconn) as [tclient|e]; [|reflexivity].
  destruct (dict_get YAML_VALIDATIONS d) as [v|]; [|reflexivity].
  destruct (py_iter v) as [blocks|e]; reflexivity.
Qed.

(** C7, as the code has it.  A document that lacks [source], [target] or
    [validations] never yields configurations.  The error is the
    [KeyError] of the first missing key the code reaches: [source] at
    once; [target] once the source connection is resolved; [validations]
    once both connections are resolved and both clients acquired.  An
    error of connection resolution or client acquisition that comes
    earlier is raised instead.  Stored connections and files are left as
    they were. *)
Theorem yaml_missing_key_raises_KeyError (args : Args) (w : World)
    (path : string) (d : dict value) :
  args_config_file args = Some path ->
  truthy (Some path) = true ->
  dict_get path (files w) = Some (VDict d) ->
  dict_get YAML_SOURCE d = None \/ dict_get YAML_TARGET d = None
    \/ dict_get YAML_VALIDATIONS d = None ->
  exists e w',
    build_config_managers_from_yaml args w = (Raise e, w')
    /\ conn_store w' = conn_store w /\ files w' = files w
    /\ (dict_get YAML_SOURCE d = None -> e = KeyError "source" /\ w' = w)
    /\ (forall sref sconn,
          dict_get YAML_SOURCE d = Some sref ->
          get_connection sref (conn_store w) = Ok sconn ->
          dict_get YAML_TARGET d = None ->
          e = KeyError "target" /\ w' = w)
    /\ (forall sref sconn tref tconn sclient tclient,
          dict_get YAML_SOURCE d = Some sref ->
          get_connection sref (conn_store w) = Ok sconn ->
          dict_get YAML_TARGET d = Some tref ->
          get_connection tref (conn_store w) = Ok tconn ->
          get_data_client sconn = Ok sclient ->
          get_data_client tconn = Ok tclient ->
          e = KeyError "validations").
Proof.
  intros Hfile Htruthy Hdoc Hmissing.
  rewrite (build_config_managers_from_yaml_steps args w path d)
    by assumption.
  destruct (dict_get YAML_SOURCE d) as [sref|] eqn:Hs; [|yaml_branch].
  destruct (get_connection sref (conn_store w)) as [sconn|e] eqn:Hsc;
    [|yaml_branch].
  destruct (dict_get YAML_TARGET d) as [tref|] eqn:Ht; [|yaml_branch].
  destruct (get_connection tref (conn_store w)) as [tconn|e] eqn:Htc;
    [|yaml_branch].
  destruct (get_data_client sconn) as [sclient|e] eqn:Hscl; [|yaml_branch].
  cbv zeta.
  destruct (get_data_client tconn) as [tclient|e] eqn:Htcl; [|yaml_branch].
  destruct (dict_get YAML_VALIDATIONS d) as [v|] eqn:Hv; [|yaml_branch].
  destruct Hmissing as [Hm | [Hm | Hm]]; discriminate.
Qed.
End YamlPath.

Lemma empty_document_run :
  build_config_managers_from_yaml (H := Sample.external)
    MissingKeysExample.args MissingKeysExample.world
  = (Raise (KeyError "source"), MissingKeysExample.world).
Proof. reflexivity. Qed.

Lemma yaml_missing_key_raises_KeyError_witness :
  exists e w',
    build_config_managers_from_yaml (H := Sample.external)
      MissingKeysExample.args MissingKeysExample.world = (Raise e, w')
    /\ conn_store w' = conn_store MissingKeysExample.world
    /\ files w' = files MissingKeysExample.world
    /\ (dict_get YAML_SOURCE (@nil (string * value)) = None ->
        e = KeyError "source" /\ w' = MissingKeysExample.world)
    /\ (forall sref sconn,
          dict_get YAML_SOURCE (@nil (string * value)) = Some sref ->
          get_connection (External := Sample.external) sref
            (conn_store MissingKeysExample.world) = Ok sconn ->
          dict_get YAML_TARGET (@nil (string * value)) = None ->
          e = KeyError "target" /\ w' = MissingKeysExample.world)
    /\ (forall sref sconn tref tconn sclient tclient,
          dict_get YAML_SOURCE (@nil (string * value)) = Some sref ->
          get_connection (External := Sample.external) sref
            (conn_store MissingKeysExample.world) = Ok sconn ->
          dict_get YAML_TARGET (@nil (string * value)) = Some tref ->
          get_connection (External := Sample.external) tref
            (conn_store MissingKeysExample.world) = Ok tconn ->
          get_data_client (External := Sample.external) sconn = Ok sclient ->
          get_data_client (External := Sample.external) tconn = Ok tclient ->
          e = KeyError "validations").
Proof.
  apply (yaml_missing_key_raises_KeyError (H := Sample.external)
           MissingKeysExample.args MissingKeysExample.world "bad.yaml" []).
  - reflexivity.
  - reflexivity.
  - reflexivity.
  - left. reflexivity.
Defined.

(** C7 fails as stated.  Building from a document with no key at all raises
    [KeyError('source')], which is not a [SerializationError]. *)
Lemma SerializationError_counterexample :
  ~ rejects_with_SerializationError (H := Sample.external)
      MissingKeysExample.args MissingKeysExample.world.
Proof.
  intros (e & w' & Hrun & Hser).
  rewrite empty_document_run in Hrun.
  inversion Hrun; subst. discriminate Hser.
Qed.

(* ================================================================== *)
(** ** YAML round trip *)

Lemma base_result_handler_get (config_type : string) (sconn tconn : value)
    (sclient tclient : Client) (table_obj rhc : value) (verbose : bool) :
  dict_get CONFIG_RESULT_HANDLER
    (config (build_config_manager config_type sconn tconn sclient tclient
               table_obj rhc verbose))
  = Some rhc.
Proof.
  unfold build_config_manager, dict_literal. simpl config.
  rewrite fold_left_app. simpl. now rewrite dict_get_set_same.
Qed.

Lemma map_result_map {A B C} (f : B -> result C) (g : A -> B) (h : A -> C)
    (l : list A) :
  (forall x, In x l -> f (g x) = Ok (h x)) ->
  map_result f (map g l) = Ok (map h l).
Proof.
  induction l as [|x l IH]; simpl; intros Hall; [reflexivity|].
  rewrite Hall by now left. simpl. rewrite IH; [reflexivity|].
  intros x' Hx'. apply Hall. now right.
Qed.

Lemma dict_get_without_document_keys (k : string) (d : dict value) :
  dict_get k
    (filter (fun kv => negb (existsb (String.eqb (fst kv)) document_level_keys))
       d)
  = if existsb (String.eqb k) document_level_keys then None else dict_get k d.
Proof.
  pose proof (dict_get_filter
                (fun k => negb (existsb (String.eqb k) document_level_keys))
                k d) as Hf.
  cbv beta in Hf. rewrite Hf.
  now destruct (existsb (String.eqb k) document_level_keys).
Qed.

(* ================================================================== *)
(** ** What a command leaves alone *)

Section Frames.
Variable R : World -> World -> Prop.
Hypothesis R_refl : forall w, R w w.
Hypothesis R_trans : forall w1 w2 w3, R w1 w2 -> R w2 w3 -> R w1 w3.

Lemma respects_ret {A} (a : A) : respects R (ret a).
Proof. intros w. apply R_refl. Qed.

Lemma respects_raise {A} (e : exn) : respects R (@raise A e).
Proof. intros w. apply R_refl. Qed.

Lemma respects_lift {A} (r : result A) : respects R (lift r).
Proof. intros w. apply R_refl. Qed.

Lemma respects_bind {A B} (m : M A) (k : A -> M B) :
  respects R m -> (forall a, respects R (k a)) -> respects R (bind m k).
Proof.
  intros Hm Hk w. unfold bind. specialize (Hm w).
  destruct (m w) as [[a | e] w1]; simpl in *; [|assumption].
  eapply R_trans; [exact Hm | apply Hk].
Qed.

Lemma respects_for_each {A} (f : A -> M unit) (l : list A) :
  (forall x, respects R (f x)) -> respects R (for_each f l).
Proof.
  intros Hf. induction l as [|x l IH]; simpl.
  - apply respects_ret.
  - apply respects_bind; [apply Hf | intros _; exact IH].
Qed.

Lemma respects_if {A} (b : bool) (m1 m2 : M A) :
  respects R m1 -> respects R m2 -> respects R (if b then m1 else m2).
Proof. now destruct b. Qed.
End Frames.

Lemma same_store_refl (w : World) : same_store w w.
Proof. reflexivity. Qed.

Lemma same_store_trans (w1 w2 w3 : World) :
  same_store w1 w2 -> same_store w2 w3 -> same_store w1 w3.
Proof. unfold same_store. congruence. Qed.

Lemma same_files_refl (w : World) : same_files w w.
Proof. reflexivity. Qed.

Lemma same_files_trans (w1 w2 w3 : World) :
  same_files w1 w2 -> same_files w2 w3 -> same_files w1 w3.
Proof. unfold same_files. congruence. Qed.

Lemma calls_extended_refl (Q : Event -> Prop) (w : World) : calls_extended Q w w.
Proof. exists []. split; [now rewrite app_nil_r | constructor]. Qed.

Lemma calls_extended_trans (Q : Event -> Prop) (w1 w2 w3 : World) :
  calls_extended Q w1 w2 -> calls_extended Q w2 w3 -> calls_extended Q w1 w3.
Proof.
  intros (e1 & H1 & F1) (e2 & H2 & F2). exists (e1 ++ e2).
  split; [rewrite H2, H1; now rewrite app_assoc | now apply Forall_app].
Qed.

Lemma calls_extended_one (Q : Event -> Prop) (ev : Event) (w w' : World) :
  Q ev -> calls w' = calls w ++ [ev] -> calls_extended Q w w'.
Proof. intros HQ Hc. exists [ev]. split; [assumption | now constructor]. Qed.

Section FrameFacts.
Context `{External}.

Lemma resolve_connection_unchanged (R : World -> World -> Prop) (ref : value) :
  (forall w, R w w) -> respects R (resolve_connection ref).
Proof. intros Hr w. apply Hr. Qed.

Lemma read_file_unchanged (R : World -> World -> Prop) (path : string) :
  (forall w, R w w) -> respects R (_get_yaml_config_from_file path).
Proof.
  intros Hr w. unfold _get_yaml_config_from_file.
  destruct (dict_get path (files w)); apply Hr.
Qed.

Lemma acquire_client_world (conn : value) (w : World) :
  snd (acquire_client conn w) = logged (EvGetDataClient conn) w.
Proof.
  unfold acquire_client, bind, log, lift. simpl.
  now destruct (get_data_client conn).
Qed.

Lemma run_validation_world (cm : ConfigManager) (verbose : bool) (w : World) :
  snd (run_validation cm verbose w) = logged (EvExecute (config cm) verbose) w.
Proof. reflexivity. Qed.

Lemma persist_connection_calls (name : string) (conn : value) (w : World) :
  calls (snd (persist_connection name conn w))
  = calls w ++ [EvStoreConnection name conn]
  /\ files (snd (persist_connection name conn w)) = files w.
Proof.
  unfold persist_connection.
  destruct (store_connection name conn (conn_store w)); simpl; auto.
Qed.
End FrameFacts.

Section CommandFrames.
Context `{External}.
Variable R : World -> World -> Prop.
Hypothesis HR : allows_reading R.

Lemma R_refl' : forall w, R w w.
Proof. apply HR. Qed.

Lemma R_trans' : forall w1 w2 w3, R w1 w2 -> R w2 w3 -> R w1 w3.
Proof. apply HR. Qed.

Lemma frame_bind {A B} (m : M A) (k : A -> M B) :
  respects R m -> (forall a, respects R (k a)) -> respects R (bind m k).
Proof. apply respects_bind. exact R_trans'. Qed.

Lemma frame_lift {A} (r : result A) : respects R (lift r).
Proof. apply respects_lift. exact R_refl'. Qed.

Lemma frame_resolve (ref : value) : respects R (resolve_connection ref).
Proof. apply resolve_connection_unchanged. exact R_refl'. Qed.

Lemma frame_acquire (conn : value) : respects R (acquire_client conn).
Proof.
  intros w. rewrite acquire_client_world.
  destruct HR as (_ & _ & Hlog & _). apply Hlog. exact I.
Qed.

Lemma frame_args_path (args : Args) :
  respects R (build_config_managers_from_args args).
Proof.
  unfold build_config_managers_from_args.
  repeat first [ apply frame_bind; [|intros ?]
               | apply frame_lift | apply frame_resolve | apply frame_acquire ].
Qed.

Lemma frame_yaml_path (args : Args) :
  respects R (build_config_managers_from_yaml args).
Proof.
  unfold build_config_managers_from_yaml.
  repeat first [ apply frame_bind; [|intros ?]
               | apply frame_lift | apply frame_resolve | apply frame_acquire
               | apply read_file_unchanged; exact R_refl' ].
Qed.

Lemma frame_find_tables (args : Args) :
  respects R (find_tables_using_string_matching args).
Proof.
  unfold find_tables_using_string_matching.
  repeat first [ apply frame_bind; [|intros ?]
               | apply frame_lift | apply frame_resolve | apply frame_acquire
               | apply respects_ret; exact R_refl' ].
Qed.

Lemma frame_run_validations (args : Args) (cms : list ConfigManager) :
  (forall cfg verbose w, R w (logged (EvExecute cfg verbose) w)) ->
  respects R (run_validations args cms).
Proof.
  intros Hex. unfold run_validations.
  apply respects_for_each; [exact R_refl' | exact R_trans' |].
  intros cm w. rewrite run_validation_world. apply Hex.
Qed.

Lemma frame_store_yaml (args : Args) (cms : list ConfigManager) :
  (forall path doc w, R w (written path doc w)) ->
  respects R (store_yaml_config_file args cms).
Proof.
  intros Hwr. unfold store_yaml_config_file.
  repeat first [ apply frame_bind; [|intros ?] | apply frame_lift ].
  intros w. unfold write_file.
  destruct (open_for_writing a); [apply Hwr | apply R_refl'].
Qed.

Lemma frame_run_connections (args : Args) :
  (args_connect_cmd args = "add" ->
   forall name conn w, R w (snd (persist_connection name conn w))) ->
  respects R (run_connections args).
Proof.
  intros Hst. unfold run_connections.
  destruct (String.eqb (args_connect_cmd args) "list").
  { intros w. destruct HR as (_ & _ & Hlog & _). apply (Hlog EvListConnections).
    exact I. }
  destruct (String.eqb_spec (args_connect_cmd args) "add") as [Hadd | _].
  - repeat first [ apply frame_bind; [|intros ?]
                 | apply frame_lift | apply frame_acquire ].
    intros w. now apply Hst.
  - apply respects_raise. exact R_refl'.
Qed.

Lemma frame_run (args : Args) :
  (truthy (args_config_file args) = true ->
   forall path doc w, R w (written path doc w)) ->
  (truthy (args_config_file args) = false ->
   forall cfg verbose w, R w (logged (EvExecute cfg verbose) w)) ->
  respects R (run args).
Proof.
  intros Hwr Hex. unfold run.
  apply frame_bind; [apply frame_args_path | intros cms].
  destruct (truthy (args_config_file args)).
  - apply frame_store_yaml. now apply Hwr.
  - apply frame_run_validations. now apply Hex.
Qed.

Lemma frame_print (line : string) : respects R (print line).
Proof. intros w. apply HR. Qed.

Lemma frame_main (args : Args) :
  (args_command args = "run" -> truthy (args_config_file args) = true ->
   forall path doc w, R w (written path doc w)) ->
  (args_command args = "run" -> truthy (args_config_file args) = false ->
   forall cfg verbose w, R w (logged (EvExecute cfg verbose) w)) ->
  (args_command args = "run-config" ->
   forall cfg verbose w, R w (logged (EvExecute cfg verbose) w)) ->
  (args_command args = "connections" -> args_connect_cmd args = "add" ->
   forall name conn w, R w (snd (persist_connection name conn w))) ->
  respects R (main args).
Proof.
  intros Hwr Hex Hcfg Hst. unfold main.
  destruct (String.eqb_spec (args_command args) "run") as [Hrun | _].
  { apply frame_run; auto. }
  destruct (String.eqb_spec (args_command args) "connections") as [Hconn | _].
  { apply frame_run_connections; auto. }
  destruct (String.eqb_spec (args_command args) "run-config") as [Hrc | _].
  { apply frame_bind; [apply frame_yaml_path | intros cms].
    apply frame_run_validations. auto. }
  destruct (String.eqb (args_command args) "find-tables").
  - apply frame_bind; [apply frame_find_tables | intros out].
    apply frame_print.
  - apply respects_raise. exact R_refl'.
Qed.
End CommandFrames.

Lemma same_store_allows_reading : allows_reading same_store.
Proof.
  split; [exact same_store_refl|]. split; [exact same_store_trans|].
  split; reflexivity.
Qed.

Lemma same_files_allows_reading : allows_reading same_files.
Proof.
  split; [exact same_files_refl|]. split; [exact same_files_trans|].
  split; reflexivity.
Qed.

Lemma calls_extended_allows_reading (Q : Event -> Prop) :
  (forall ev, not_mutating ev -> Q ev) -> allows_reading (calls_extended Q).
Proof.
  intros HQ. split; [apply calls_extended_refl|].
  split; [apply calls_extended_trans|]. split.
  - intros ev w Hev. eapply calls_extended_one; [apply HQ, Hev | reflexivity].
  - intros line w. exists []. simpl.
    split; [now rewrite app_nil_r | constructor].
Qed.

Section CommandGuarantees.
Context `{External}.

(** X1.  The connection store is changed by [connections add] only: under every
    other command it is afterwards what it was, whether the command
    succeeds or raises. *)
Theorem main_store_only_changed_by_add (args : Args) (w : World) :
  args_command args <> "connections" \/ args_connect_cmd args <> "add" ->
  conn_store (snd (main args w)) = conn_store w.
Proof.
  intros Hcmd.
  apply (frame_main same_store same_store_allows_reading args);
    try reflexivity.
  intros Hc Ha. destruct Hcmd; contradiction.
Qed.

(** X2.  The module's own file write, the [open(path, "w")] of
    [store_yaml_config_file], is reached by [run] with a configuration file
    only: under every other command, and under [run] without
    [--config-file], the documents at the paths the module itself opens
    are afterwards what they were, whether the command succeeds or raises.
    What the connection tools and the engine keep on disk of their own is
    not part of [files]. *)
Theorem main_files_only_changed_by_run_with_config_file
    (args : Args) (w : World) :
  args_command args <> "run" \/ truthy (args_config_file args) = false ->
  files (snd (main args w)) = files w.
Proof.
  intros Hcmd.
  apply (frame_main same_files same_files_allows_reading args);
    try reflexivity.
  - intros Hr Ht. destruct Hcmd; congruence.
  - intros _ _ name conn w0. apply persist_connection_calls.
Qed.

(** X3.  The validation engine is called by [run] without a configuration file
    and by [run-config] only: [run --config-file], [connections] and
    [find-tables] make no engine call, whether they succeed or raise. *)
Theorem main_engine_only_called_by_run_and_run_config
    (args : Args) (w : World) :
  args_command args <> "run-config" ->
  (args_command args = "run" -> truthy (args_config_file args) = true) ->
  calls_extended not_execute w (snd (main args w)).
Proof.
  intros Hrc Hrun.
  apply (frame_main (calls_extended not_execute)).
  - apply calls_extended_allows_reading.
    intros [] Hev; try contradiction; intros cfg v; discriminate.
  - intros _ _ path doc w0. exists []. simpl.
    split; [now rewrite app_nil_r | constructor].
  - intros Hr Ht. rewrite (Hrun Hr) in Ht. discriminate.
  - intros Hc. contradiction.
  - intros _ _ name conn w0.
    eapply calls_extended_one; [|apply persist_connection_calls].
    intros cfg v. discriminate.
Qed.
End CommandGuarantees.

Lemma main_store_only_changed_by_add_witness :
  conn_store (snd (main (H := Sample.external)
                     RoundTripExample.args Sample.world))
  = conn_store Sample.world.
Proof.
  apply (main_store_only_changed_by_add (H := Sample.external)).
  left. discriminate.
Defined.

Lemma main_files_only_changed_by_run_with_config_file_witness :
  files (snd (main (H := Sample.external) Sample.args Sample.world))
  = files Sample.world.
Proof.
  apply (main_files_only_changed_by_run_with_config_file
           (H := Sample.external)).
  right. reflexivity.
Defined.

Lemma main_engine_only_called_by_run_and_run_config_witness :
  calls_extended not_execute Sample.world
    (snd (main (H := Sample.external) RoundTripExample.args Sample.world)).
Proof.
  apply (main_engine_only_called_by_run_and_run_config
           (H := Sample.external)).
  - discriminate.
  - intros _. reflexivity.
Defined.

(* ================================================================== *)
(** ** Configuration file argument and files *)

Section ConfigFile.
Context `{External}.

(** X4.  Without a configuration file argument ([None] or the empty string) the
    YAML path and the YAML writer raise the same [ValueError] and leave the
    world alone: no connection is resolved, and the writer does not even
    look at the configurations, so an empty list gives this error and not
    an index error.  With an argument that names no file, the YAML path
    raises [FileNotFoundError] before any connection is resolved. *)
Theorem config_file_checked_first (args : Args) (w : World)
    (cms : list ConfigManager) :
  (truthy (args_config_file args) = false ->
   build_config_managers_from_yaml args w
   = (Raise (ValueError "YAML Config File was not supplied."), w)
   /\ store_yaml_config_file args cms w
      = (Raise (ValueError "YAML Config File was not supplied."), w))
  /\ (forall path,
        args_config_file args = Some path -> truthy (Some path) = true ->
        dict_get path (files w) = None ->
        build_config_managers_from_yaml args w
        = (Raise (FileNotFoundError path), w)).
Proof.
  split.
  - intros Hf.
    unfold build_config_managers_from_yaml, store_yaml_config_file,
      _get_arg_config_file, bind, lift.
    destruct (args_config_file args) as [path|]; [|split; reflexivity].
    rewrite Hf. split; reflexivity.
  - intros path Hfile Ht Hnone.
    unfold build_config_managers_from_yaml, _get_arg_config_file,
      _get_yaml_config_from_file, bind, lift.
    now rewrite Hfile, Ht, Hnone.
Qed.

End ConfigFile.

Lemma config_file_checked_first_witness :
  build_config_managers_from_yaml (H := Sample.external)
    Sample.args Sample.world
  = (Raise (ValueError "YAML Config File was not supplied."), Sample.world)
  /\ store_yaml_config_file (H := Sample.external)
       Sample.args [] Sample.world
     = (Raise (ValueError "YAML Config File was not supplied."),
        Sample.world)
  /\ build_config_managers_from_yaml (H := Sample.external)
       EmptyTablesExample.args Sample.world
     = (Raise (FileNotFoundError "out.yaml"), Sample.world).
Proof.
  split; [|split].
  - apply (proj1 (config_file_checked_first (H := Sample.external)
                    Sample.args Sample.world [])).
    reflexivity.
  - apply (proj1 (config_file_checked_first (H := Sample.external)
                    Sample.args Sample.world [])).
    reflexivity.
  - apply (proj2 (config_file_checked_first (H := Sample.external)
                    EmptyTablesExample.args Sample.world []));
      reflexivity.
Defined.

(* ================================================================== *)
(** ** Commands that are not known *)

Section Dispatch.
Context `{External}.

(** X6.  A command other than [run], [connections], [run-config] and
    [find-tables] makes [main] raise a [ValueError] that names it; under
    [connections], a sub-command other than [list] and [add] does the
    same.  In both cases nothing else happens. *)
Theorem unknown_command_raises (args : Args) (w : World) :
  (args_command args <> "run" -> args_command args <> "connections" ->
   args_command args <> "run-config" -> args_command args <> "find-tables" ->
   main args w = (Raise (unsupported "Positional" (args_command args)), w))
  /\ (args_command args = "connections" ->
      args_connect_cmd args <> "list" -> args_connect_cmd args <> "add" ->
      main args w
      = (Raise (unsupported "Connections" (args_connect_cmd args)), w)).
Proof.
  split.
  - intros H1 H2 H3 H4. unfold main.
    apply String.eqb_neq in H1, H2, H3, H4. now rewrite H1, H2, H3, H4.
  - intros Hc H1 H2. unfold main, run_connections. rewrite Hc. simpl.
    apply String.eqb_neq in H1, H2. now rewrite H1, H2.
Qed.

End Dispatch.

Lemma unknown_command_raises_witness :
  main (H := Sample.external)
    (mkArgs "validate" "list" "C" None "A" "B" "[]" "Column"
       None None None None false)
    Sample.world
  = (Raise (ValueError "Positional Argument 'validate' is not supported"),
     Sample.world)
  /\ main (H := Sample.external)
       (mkArgs "connections" "remove" "C" None "A" "B" "[]" "Column"
          None None None None false)
       Sample.world
     = (Raise (ValueError "Connections Argument 'remove' is not supported"),
        Sample.world).
Proof.
  split.
  - apply (proj1 (unknown_command_raises (H := Sample.external)
                    (mkArgs "validate" "list" "C" None "A" "B" "[]" "Column"
                       None None None None false)
                    Sample.world)); discriminate.
  - apply (proj2 (unknown_command_raises (H := Sample.external)
                    (mkArgs "connections" "remove" "C" None "A" "B" "[]"
                       "Column" None None None None false)
                    Sample.world)); [reflexivity | discriminate | discriminate].
Defined.

(* ================================================================== *)
(** ** More on the assembler *)

Section AssemblerMore.
Context `{External}.

(** X8.  With both metric flags, a successful assembly returns the full-table
    count, then the count aggregates built with no type filter, then the
    sum aggregates built with the type filter [int64], [float64]. *)
Theorem count_and_sum_in_order (args : Args) (cm : ConfigManager)
    (count sum : string) (specs : list value) :
  args_count args = Some count -> truthy (Some count) = true ->
  args_sum args = Some sum -> truthy (Some sum) = true ->
  get_aggregate_config args cm = Ok specs ->
  exists count_cols sum_cols counts sums,
    col_args_of count = Ok count_cols
    /\ col_args_of sum = Ok sum_cols
    /\ build_config_column_aggregates cm "count" count_cols VNone = Ok counts
    /\ build_config_column_aggregates cm "sum" sum_cols
         (VList [VStr "int64"; VStr "float64"]) = Ok sums
    /\ specs = build_config_count_aggregate cm :: counts ++ sums.
Proof.
  intros Hc Htc Hs Hts. unfold get_aggregate_config.
  rewrite Hc, Htc, Hs, Hts. intros Hg.
  apply rbind_Ok in Hg as (l1 & H1 & Hg).
  apply rbind_Ok in H1 as (cc & Hcc & H1).
  apply rbind_Ok in H1 as (counts & Hcounts & H1). inversion H1; subst l1.
  apply rbind_Ok in Hg as (l2 & H2 & Hg). inversion Hg; subst l2.
  apply rbind_Ok in H2 as (sc & Hsc & H2).
  apply rbind_Ok in H2 as (sums & Hsums & H2). inversion H2; subst specs.
  exists cc, sc, counts, sums. repeat split; auto.
Qed.

(** X9.  A count or sum flag whose text the JSON decoder rejects makes the
    assembly raise the decoder's error; the selector [*] is never handed to
    the decoder. *)
Theorem malformed_flag_raises (args : Args) (cm : ConfigManager)
    (count : string) (e : exn) :
  args_count args = Some count -> truthy (Some count) = true ->
  count <> "*" -> json_loads count = Raise e ->
  get_aggregate_config args cm = Raise e
  /\ build_config_from_args args cm = Raise e
  /\ col_args_of "*" = Ok VNone.
Proof.
  intros Hc Htc Hstar Hj.
  assert (Hg : get_aggregate_config args cm = Raise e).
  { unfold get_aggregate_config, col_args_of. rewrite Hc, Htc.
    apply String.eqb_neq in Hstar. now rewrite Hstar, Hj. }
  split; [exact Hg|]. split; [|reflexivity].
  unfold build_config_from_args. now rewrite Hg.
Qed.

(** X10.  For a validation type other than [GroupedColumn] the grouped-columns
    argument is never looked at: any other value of it, absent or
    malformed, gives the same result, and the group columns of the
    configuration are left as they were. *)
Theorem grouped_columns_ignored_unless_grouped (args : Args)
    (cm : ConfigManager) (g : option string) :
  value_is_str (validation_type cm) "GroupedColumn" = false ->
  build_config_from_args (with_grouped_columns g args) cm
  = build_config_from_args args cm
  /\ (forall cm', build_config_from_args args cm = Ok cm' ->
        query_groups cm' = query_groups cm).
Proof.
  intros Hty.
  assert (Htype : forall specs,
             value_is_str (validation_type (append_aggregates cm specs))
               "GroupedColumn" = false).
  { intros specs. unfold validation_type.
    rewrite config_get_append_aggregates by discriminate. exact Hty. }
  split.
  - unfold build_config_from_args.
    change (get_aggregate_config (with_grouped_columns g args) cm)
      with (get_aggregate_config args cm).
    destruct (get_aggregate_config args cm) as [specs|e]; simpl;
      [|reflexivity].
    now rewrite Htype.
  - intros cm' Hb. unfold build_config_from_args in Hb.
    apply rbind_Ok in Hb as (specs & _ & Hb). rewrite Htype in Hb.
    inversion Hb. unfold query_groups.
    now rewrite config_get_append_aggregates by discriminate.
Qed.

(** X11.  For the validation type [GroupedColumn]: without a grouped-columns
    argument the assembly raises a [TypeError] once the aggregates are
    built (the decoder is handed [None]); with one, the group columns built from it are attached after the
    ones already there, and the aggregates are those of the assembler. *)
Theorem grouped_columns_attached (args : Args) (cm : ConfigManager)
    (specs : list value) :
  value_is_str (validation_type cm) "GroupedColumn" = true ->
  get_aggregate_config args cm = Ok specs ->
  (args_grouped_columns args = None ->
   exists msg, build_config_from_args args cm = Raise (TypeError msg))
  /\ (forall text columns groups,
        args_grouped_columns args = Some text ->
        json_loads text = Ok columns ->
        build_config_grouped_columns (append_aggregates cm specs) columns
        = Ok groups ->
        exists cm',
          build_config_from_args args cm = Ok cm'
          /\ query_groups cm' = query_groups cm ++ groups
          /\ aggregates cm' = aggregates cm ++ specs).
Proof.
  intros Hty Hspecs.
  assert (Htype : value_is_str (validation_type (append_aggregates cm specs))
                    "GroupedColumn" = true).
  { unfold validation_type.
    rewrite config_get_append_aggregates by discriminate. exact Hty. }
  unfold build_config_from_args. rewrite Hspecs. simpl. rewrite Htype.
  split.
  - intros Hg. rewrite Hg. eexists. reflexivity.
  - intros text columns groups Hg Hj Hb. rewrite Hg. simpl.
    rewrite Hj. simpl. rewrite Hb. simpl.
    eexists. split; [reflexivity|]. split.
    + unfold append_query_groups, set_config, query_groups at 1. simpl.
      rewrite dict_get_set_same. f_equal. unfold query_groups. simpl.
      now rewrite dict_get_set_other by discriminate.
    + now rewrite aggregates_append_query_groups, aggregates_append_aggregates.
Qed.
End AssemblerMore.

Lemma count_and_sum_in_order_witness :
  exists count_cols sum_cols counts sums,
    col_args_of (H := Sample.external) "*" = Ok count_cols
    /\ col_args_of (H := Sample.external) "*" = Ok sum_cols
    /\ build_config_column_aggregates (External := Sample.external)
         AssemblerExample.column "count" count_cols VNone = Ok counts
    /\ build_config_column_aggregates (External := Sample.external)
         AssemblerExample.column "sum" sum_cols
         (VList [VStr "int64"; VStr "float64"]) = Ok sums
    /\ [Sample.count_all; Sample.count_all;
        Sample.spec "sum" (VStr "all") (VList [VStr "int64"; VStr "float64"])]
       = build_config_count_aggregate (External := Sample.external)
           AssemblerExample.column :: counts ++ sums.
Proof.
  apply (count_and_sum_in_order (H := Sample.external)
           AssemblerExample.args_both AssemblerExample.column "*" "*");
    reflexivity.
Defined.

Lemma malformed_flag_raises_witness :
  get_aggregate_config (H := Sample.external)
    AssemblerExample.args_bad_count AssemblerExample.column
  = Raise (mkExn "JSONDecodeError" "oops")
  /\ build_config_from_args (H := Sample.external)
       AssemblerExample.args_bad_count AssemblerExample.column
     = Raise (mkExn "JSONDecodeError" "oops")
  /\ col_args_of (H := Sample.external) "*" = Ok VNone.
Proof.
  apply (malformed_flag_raises (H := Sample.external)
           AssemblerExample.args_bad_count AssemblerExample.column "oops");
    first [reflexivity | discriminate].
Defined.

Lemma grouped_columns_ignored_unless_grouped_witness :
  build_config_from_args (H := Sample.external)
    (with_grouped_columns (Some "oops") Sample.args) AssemblerExample.column
  = build_config_from_args (H := Sample.external)
      Sample.args AssemblerExample.column
  /\ (forall cm',
        build_config_from_args (H := Sample.external)
          Sample.args AssemblerExample.column = Ok cm' ->
        query_groups cm' = query_groups AssemblerExample.column).
Proof.
  apply (grouped_columns_ignored_unless_grouped (H := Sample.external)
           Sample.args AssemblerExample.column (Some "oops")).
  reflexivity.
Defined.

Lemma grouped_columns_attached_witness :
  exists msg,
    build_config_from_args (H := Sample.external)
      Sample.args AssemblerExample.grouped
    = Raise (TypeError msg).
Proof.
  apply (proj1 (grouped_columns_attached (H := Sample.external)
                  Sample.args AssemblerExample.grouped [Sample.count_all]
                  eq_refl eq_refl)).
  reflexivity.
Defined.

(* ================================================================== *)
(** ** The argument path *)

Lemma NoDup_keys_filter {V} (f : string * V -> bool) (d : dict V) :
  NoDup (dict_keys d) -> NoDup (dict_keys (filter f d)).
Proof.
  unfold dict_keys. induction d as [|[k v] d IH]; simpl; intros Hnd.
  - constructor.
  - inversion Hnd as [|? ? Hni Hnd']; subst. destruct (f (k, v)); simpl; auto.
    constructor; auto. intros Hin. apply Hni.
    apply in_map_iff in Hin as (kv & Hk & Hin). apply filter_In in Hin as [Hin _].
    apply in_map_iff. eauto.
Qed.

Lemma dict_get_fold_set_NoDup {V} (k : string) (v : V)
    (items : list (string * V)) : forall d : dict V,
  NoDup (map fst items) -> In (k, v) items ->
  dict_get k (fold_left (fun d kv => dict_set (fst kv) (snd kv) d) items d)
  = Some v.
Proof.
  induction items as [|[k' v'] items IH]; simpl; intros d Hnd Hin; [tauto|].
  inversion Hnd as [|? ? Hni Hnd']; subst. destruct Hin as [Heq | Hin].
  - inversion Heq; subst. rewrite dict_get_fold_set_other by assumption.
    apply dict_get_set_same.
  - now apply IH.
Qed.

(** The base configuration names the table of its table object. *)
Lemma base_identity_get (config_type : string) (sconn tconn : value)
    (sclient tclient : Client) (d : dict value) (rhc : value) (verbose : bool)
    (k : string) (v : value) :
  NoDup (dict_keys d) -> In k identity_keys -> dict_get k d = Some v ->
  dict_get k
    (config (build_config_manager config_type sconn tconn sclient tclient
               (VDict d) rhc verbose))
  = Some v.
Proof.
  intros Hnd Hk Hget. unfold build_config_manager, dict_literal. simpl config.
  rewrite fold_left_app. simpl fold_left at 1.
  rewrite dict_get_set_other.
  2:{ intros ->. simpl in Hk. intuition discriminate. }
  apply dict_get_fold_set_NoDup.
  - apply (NoDup_keys_filter _ d Hnd).
  - apply filter_In. split; [now apply dict_get_In|].
    simpl in Hk. destruct Hk as [<- | [<- | [<- | [<- | []]]]]; reflexivity.
Qed.

Section ArgumentPath.
Context `{External}.

(** X12.  A successful argument path resolved both connections, acquired the
    source client and then the target client and nothing else, and built
    one configuration per table object, in the order of the tables list.
    Each configuration holds the validation type of the arguments, the two
    resolved connections, the result-handler configuration ([None] without
    the flag, the decoded flag otherwise) and the identity fields of its
    table object. *)
Theorem argument_path_configurations (args : Args) (w w1 : World)
    (cms : list ConfigManager) :
  build_config_managers_from_args args w = (Ok cms, w1) ->
  exists sconn tconn rhc tables_list table_objs,
    get_connection (VStr (args_source_conn args)) (conn_store w) = Ok sconn
    /\ get_connection (VStr (args_target_conn args)) (conn_store w) = Ok tconn
    /\ (truthy (args_result_handler_config args) = false -> rhc = VNone)
    /\ (forall text,
          args_result_handler_config args = Some text ->
          truthy (Some text) = true -> json_loads text = Ok rhc)
    /\ json_loads (args_tables_list args) = Ok tables_list
    /\ py_iter tables_list = Ok table_objs
    /\ w1 = logged (EvGetDataClient tconn) (logged (EvGetDataClient sconn) w)
    /\ Forall2
         (fun table_obj cm =>
            validation_type cm = Some (VStr (args_type args))
            /\ source_conn cm = Some sconn
            /\ target_conn cm = Some tconn
            /\ result_handler_config cm = rhc
            /\ forall d k v,
                 table_obj = VDict d -> NoDup (dict_keys d) ->
                 In k identity_keys -> dict_get k d = Some v ->
                 dict_get k (config cm) = Some v)
         table_objs cms.
Proof.
  unfold build_config_managers_from_args. intros Hb.
  apply bind_Ok in Hb as (sconn & w' & Hsrc & Hb).
  apply resolve_connection_Ok in Hsrc as [Hsrc ->].
  apply bind_Ok in Hb as (tconn & w' & Htgt & Hb).
  apply resolve_connection_Ok in Htgt as [Htgt ->].
  apply bind_Ok in Hb as (rhc & w' & Hrhc & Hb).
  apply lift_Ok in Hrhc as [Hrhc ->].
  apply bind_Ok in Hb as (sclient & w' & Hsc & Hb).
  apply acquire_client_Ok in Hsc as [Hsc ->].
  apply bind_Ok in Hb as (tclient & w' & Htc & Hb).
  apply acquire_client_Ok in Htc as [Htc ->].
  apply bind_Ok in Hb as (tl & w' & Htl & Hb). apply lift_Ok in Htl as [Htl ->].
  apply bind_Ok in Hb as (objs & w' & Hit & Hb). apply lift_Ok in Hit as [Hit ->].
  apply lift_Ok in Hb as [Hmap ->].
  exists sconn, tconn, rhc, tl, objs.
  repeat (split; [first [assumption | reflexivity]|]).
  split.
  { intros Hfalse. destruct (args_result_handler_config args) as [r|];
      [rewrite Hfalse in Hrhc|]; now inversion Hrhc. }
  split.
  { intros text Htext Htrue. rewrite Htext, Htrue in Hrhc. exact Hrhc. }
  repeat (split; [first [assumption | reflexivity]|]).
  apply map_result_Forall2 in Hmap. clear Hit.
  induction Hmap as [|obj cm objs' cms' Hcm _ IH]; constructor; [|exact IH].
  pose proof (fun k => build_config_from_args_get _ _ _ k Hcm) as Hget.
  unfold validation_type, source_conn, target_conn, result_handler_config.
  rewrite !Hget by discriminate.
  split; [apply base_validation_type|]. split; [apply base_source_conn|].
  split; [apply base_target_conn|].
  split; [now rewrite base_result_handler_get|].
  intros d k v -> Hnd Hk Hd. rewrite Hget.
  - now apply base_identity_get.
  - intros ->. simpl in Hk. intuition discriminate.
  - intros ->. simpl in Hk. intuition discriminate.
Qed.
End ArgumentPath.

Lemma argument_path_configurations_witness :
  exists sconn tconn rhc tables_list table_objs,
    get_connection (External := Sample.external)
      (VStr (args_source_conn HandlerExample.args)) (conn_store Sample.world)
    = Ok sconn
    /\ get_connection (External := Sample.external)
         (VStr (args_target_conn HandlerExample.args)) (conn_store Sample.world)
       = Ok tconn
    /\ (truthy (args_result_handler_config HandlerExample.args) = false ->
        rhc = VNone)
    /\ (forall text,
          args_result_handler_config HandlerExample.args = Some text ->
          truthy (Some text) = true ->
          json_loads (External := Sample.external) text = Ok rhc)
    /\ json_loads (External := Sample.external)
         (args_tables_list HandlerExample.args) = Ok tables_list
    /\ py_iter tables_list = Ok table_objs
    /\ ScenarioA.after_clients
       = logged (EvGetDataClient tconn)
           (logged (EvGetDataClient sconn) Sample.world)
    /\ Forall2
         (fun table_obj cm =>
            validation_type cm = Some (VStr (args_type HandlerExample.args))
            /\ source_conn cm = Some sconn
            /\ target_conn cm = Some tconn
            /\ result_handler_config cm = rhc
            /\ forall d k v,
                 table_obj = VDict d -> NoDup (dict_keys d) ->
                 In k identity_keys -> dict_get k d = Some v ->
                 dict_get k (config cm) = Some v)
         table_objs [HandlerExample.assembled].
Proof.
  apply (argument_path_configurations (H := Sample.external)
           HandlerExample.args Sample.world ScenarioA.after_clients
           [HandlerExample.assembled]).
  reflexivity.
Defined.

(** With the result-handler flag [[]] the configuration holds the decoded
    flag, the empty list. *)
Example handler_flag_decoded :
  result_handler_config HandlerExample.assembled = VList [].
Proof. reflexivity. Qed.

(* ================================================================== *)
(** ** The YAML path on any document *)

Lemma injected_get (sconn tconn rh : value) (sclient tclient : Client)
    (verbose : bool) (block : dict value) (k : string) :
  dict_get k (config (injected sconn tconn rh sclient tclient verbose block))
  = if String.eqb k CONFIG_RESULT_HANDLER then Some rh
    else if String.eqb k CONFIG_TARGET_CONN then Some tconn
    else if String.eqb k CONFIG_SOURCE_CONN then Some sconn
    else dict_get k block.
Proof.
  unfold injected. simpl config.
  destruct (String.eqb_spec k CONFIG_RESULT_HANDLER) as [-> | H1].
  { apply dict_get_set_same. }
  rewrite dict_get_set_other by assumption.
  destruct (String.eqb_spec k CONFIG_TARGET_CONN) as [-> | H2].
  { apply dict_get_set_same. }
  rewrite dict_get_set_other by assumption.
  destruct (String.eqb_spec k CONFIG_SOURCE_CONN) as [-> | H3].
  { apply dict_get_set_same. }
  now rewrite dict_get_set_other by assumption.
Qed.

Section YamlPathMore.
Context `{External}.

Lemma config_manager_of_block_dict (args : Args) (d : dict value)
    (sconn tconn : value) (sclient tclient : Client) (block : dict value) :
  config_manager_of_block args (VDict d) sconn tconn sclient tclient
    (VDict block)
  = match dict_get YAML_RESULT_HANDLER d with
    | Some rh =>
        Ok (injected sconn tconn rh sclient tclient (args_verbose args) block)
    | None => Raise (KeyError "result_handler")
    end.
Proof.
  unfold config_manager_of_block. simpl.
  now destruct (dict_get YAML_RESULT_HANDLER d).
Qed.

(** X13.  The YAML path on a document whose connections resolve and whose
    validation blocks are mappings.  With a [result_handler] key it builds
    one configuration per block, in document order, each with the shared
    connections and the shared result handler assigned over whatever the
    block held under those keys and with every other field of the block
    kept.  Without the key it raises [KeyError] at the first block, but
    succeeds with no configuration when the list of blocks is empty. *)
Theorem yaml_path_configurations (args : Args) (w : World) (path : string)
    (d : dict value) (sref tref sconn tconn : value)
    (sclient tclient : Client) (blocks : list (dict value)) :
  args_config_file args = Some path ->
  truthy (Some path) = true ->
  dict_get path (files w) = Some (VDict d) ->
  dict_get YAML_SOURCE d = Some sref ->
  dict_get YAML_TARGET d = Some tref ->
  get_connection sref (conn_store w) = Ok sconn ->
  get_connection tref (conn_store w) = Ok tconn ->
  get_data_client sconn = Ok sclient ->
  get_data_client tconn = Ok tclient ->
  dict_get YAML_VALIDATIONS d = Some (VList (map VDict blocks)) ->
  (forall rh,
     dict_get YAML_RESULT_HANDLER d = Some rh ->
     fst (build_config_managers_from_yaml args w)
     = Ok (map (injected sconn tconn rh sclient tclient (args_verbose args))
             blocks))
  /\ (dict_get YAML_RESULT_HANDLER d = None ->
      fst (build_config_managers_from_yaml args w)
      = match blocks with
        | [] => Ok []
        | _ :: _ => Raise (KeyError "result_handler")
        end)
  /\ snd (build_config_managers_from_yaml args w)
     = logged (EvGetDataClient tconn) (logged (EvGetDataClient sconn) w).
Proof.
  intros Hfile Ht Hdoc Hs Htg Hsc Htc Hscl Htcl Hv.
  rewrite (build_config_managers_from_yaml_steps args w path d Hfile Ht Hdoc).
  rewrite Hs, Hsc, Htg, Htc, Hscl. cbv zeta. rewrite Htcl, Hv. simpl py_iter.
  cbv iota beta. split; [|split; [|reflexivity]].
  - intros rh Hrh. simpl fst.
    apply map_result_map. intros block _.
    now rewrite config_manager_of_block_dict, Hrh.
  - intros Hnone. simpl fst. destruct blocks as [|b bs]; [reflexivity|].
    simpl. now rewrite config_manager_of_block_dict, Hnone.
Qed.

(** X14.  A validation block that is not a mapping (a string, a list, a number,
    nothing) makes the YAML path raise a [TypeError] when it is reached,
    even if every block before it was built. *)
Theorem yaml_block_not_a_mapping (args : Args) (w : World) (path : string)
    (d : dict value) (sref tref sconn tconn rh : value)
    (sclient tclient : Client) (before : list (dict value))
    (bad : value) (after : list value) :
  args_config_file args = Some path ->
  truthy (Some path) = true ->
  dict_get path (files w) = Some (VDict d) ->
  dict_get YAML_SOURCE d = Some sref ->
  dict_get YAML_TARGET d = Some tref ->
  get_connection sref (conn_store w) = Ok sconn ->
  get_connection tref (conn_store w) = Ok tconn ->
  get_data_client sconn = Ok sclient ->
  get_data_client tconn = Ok tclient ->
  dict_get YAML_RESULT_HANDLER d = Some rh ->
  dict_get YAML_VALIDATIONS d
  = Some (VList (map VDict before ++ bad :: after)) ->
  (forall block, bad <> VDict block) ->
  exists msg,
    fst (build_config_managers_from_yaml args w) = Raise (TypeError msg).
Proof.
  intros Hfile Ht Hdoc Hs Htg Hsc Htc Hscl Htcl Hrh Hv Hbad.
  rewrite (build_config_managers_from_yaml_steps args w path d Hfile Ht Hdoc).
  rewrite Hs, Hsc, Htg, Htc, Hscl. cbv zeta. rewrite Htcl, Hv. simpl py_iter.
  cbv iota beta. simpl fst. clear Hv.
  exists "object does not support item assignment".
  induction before as [|b bs IH]; simpl.
  - destruct bad; try reflexivity. exfalso. eapply Hbad. reflexivity.
  - rewrite config_manager_of_block_dict, Hrh. simpl. now rewrite IH.
Qed.
End YamlPathMore.

Lemma yaml_path_configurations_witness :
  fst (build_config_managers_from_yaml (H := Sample.external)
         (YamlExample.args "good.yaml") YamlExample.world)
  = Ok (map (injected YamlExample.conn_A YamlExample.conn_B VNone
               AssemblerExample.no_client AssemblerExample.no_client false)
          [YamlExample.block_t; YamlExample.block_u]).
Proof.
  apply (proj1 (yaml_path_configurations (H := Sample.external)
                  (YamlExample.args "good.yaml") YamlExample.world "good.yaml"
                  YamlExample.good (VStr "A") (VStr "B")
                  YamlExample.conn_A YamlExample.conn_B
                  AssemblerExample.no_client AssemblerExample.no_client
                  [YamlExample.block_t; YamlExample.block_u]
                  eq_refl eq_refl eq_refl eq_refl eq_refl eq_refl eq_refl
                  eq_refl eq_refl eq_refl)).
  reflexivity.
Defined.

Example yaml_path_overrides_stale_connection :
  dict_get "source_conn"
    (config (injected YamlExample.conn_A YamlExample.conn_B VNone
               AssemblerExample.no_client AssemblerExample.no_client false
               YamlExample.block_t))
  = Some YamlExample.conn_A.
Proof. reflexivity. Qed.

Lemma yaml_block_not_a_mapping_witness :
  exists msg,
    fst (build_config_managers_from_yaml (H := Sample.external)
           (YamlExample.args "bad.yaml") YamlExample.world)
    = Raise (TypeError msg).
Proof.
  apply (yaml_block_not_a_mapping (H := Sample.external)
           (YamlExample.args "bad.yaml") YamlExample.world "bad.yaml"
           YamlExample.bad (VStr "A") (VStr "B")
           YamlExample.conn_A YamlExample.conn_B VNone
           AssemblerExample.no_client AssemblerExample.no_client
           [YamlExample.block_t] (VStr "oops") [VDict YamlExample.block_u]);
    first [reflexivity | discriminate].
Defined.

(* ================================================================== *)
(** ** From the command line to the engine *)

Section EndToEnd.
Context `{External}.

Lemma run_validations_trace (args : Args) (cms : list ConfigManager) :
  forall w : World,
  exists k,
    k <= length cms
    /\ calls (snd (run_validations args cms w))
       = calls w ++ map (execute_event args) (firstn k cms)
    /\ (fst (run_validations args cms w) = Ok tt -> k = length cms)
    /\ (forall e, fst (run_validations args cms w) = Raise e -> 1 <= k).
Proof.
  induction cms as [|cm cms IH]; intros w.
  - exists 0. simpl. rewrite app_nil_r. repeat split; auto. discriminate.
  - rewrite run_validations_cons.
    destruct (execute (calls w) (config cm) (args_verbose args)) as [[]|e].
    + destruct (IH (logged (execute_event args cm) w))
        as (k & Hk & Hcalls & Hok & Hraise).
      exists (S k). split; [simpl; lia|].
      split; [rewrite Hcalls; simpl; now rewrite <- app_assoc|].
      split; [intros Hr; simpl; f_equal; auto | intros; lia].
    + exists 1. simpl. split; [lia|]. split; [now destruct cms|].
      split; [discriminate | intros; lia].
Qed.

(** X16.  [run] without a configuration file, once the argument path has built
    its configurations: the external calls are the two client acquisitions
    followed by engine calls on the configurations in the order of the
    tables list, all of them when the run succeeds and at least one when
    it raises. *)
Theorem run_executes_in_table_order (args : Args) (w w1 : World)
    (cms : list ConfigManager) :
  truthy (args_config_file args) = false ->
  build_config_managers_from_args args w = (Ok cms, w1) ->
  exists sconn tconn k,
    k <= length cms
    /\ calls (snd (run args w))
       = calls w ++ [EvGetDataClient sconn; EvGetDataClient tconn]
           ++ map (execute_event args) (firstn k cms)
    /\ (fst (run args w) = Ok tt -> k = length cms)
    /\ (forall e, fst (run args w) = Raise e -> 1 <= k).
Proof.
  intros Hf Hb. pose proof Hb as Hb'.
  apply build_config_managers_from_args_Ok in Hb'
    as (sconn & tconn & rhc & sclient & tclient & tl & objs
        & _ & _ & _ & _ & _ & _ & Hw1 & _).
  subst w1.
  destruct (run_validations_trace args cms
              (logged (EvGetDataClient tconn)
                 (logged (EvGetDataClient sconn) w)))
    as (k & Hk & Hcalls & Hok & Hraise).
  exists sconn, tconn, k.
  unfold run, bind. rewrite Hb, Hf.
  split; [assumption|]. split; [|split; assumption].
  rewrite Hcalls. simpl. now rewrite <- !app_assoc.
Qed.

(** X17.  [run-config], once the YAML path has built its configurations: the
    engine is called on them in document order after whatever the YAML
    path called, on all of them when the command succeeds and on at least
    one when it raises. *)
Theorem run_config_executes_in_document_order (args : Args) (w w1 : World)
    (cms : list ConfigManager) :
  args_command args = "run-config" ->
  build_config_managers_from_yaml args w = (Ok cms, w1) ->
  exists k,
    k <= length cms
    /\ calls (snd (main args w))
       = calls w1 ++ map (execute_event args) (firstn k cms)
    /\ (fst (main args w) = Ok tt -> k = length cms)
    /\ (forall e, fst (main args w) = Raise e -> 1 <= k).
Proof.
  intros Hcmd Hb. unfold main. rewrite Hcmd. simpl.
  unfold bind. rewrite Hb. apply run_validations_trace.
Qed.
End EndToEnd.

Lemma run_executes_in_table_order_witness :
  exists sconn tconn k,
    k <= length EndToEndExample.assembled
    /\ calls (snd (run (H := Sample.external)
                     EndToEndExample.args Sample.world))
       = calls Sample.world ++ [EvGetDataClient sconn; EvGetDataClient tconn]
           ++ map (execute_event EndToEndExample.args)
                (firstn k EndToEndExample.assembled)
    /\ (fst (run (H := Sample.external) EndToEndExample.args Sample.world)
        = Ok tt -> k = length EndToEndExample.assembled)
    /\ (forall e,
          fst (run (H := Sample.external) EndToEndExample.args Sample.world)
          = Raise e -> 1 <= k).
Proof.
  apply (run_executes_in_table_order (H := Sample.external)
           EndToEndExample.args Sample.world ScenarioA.after_clients
           EndToEndExample.assembled); reflexivity.
Defined.

Lemma run_config_executes_in_document_order_witness :
  exists k,
    k <= length EndToEndExample.loaded
    /\ calls (snd (main (H := Sample.external)
                     (YamlExample.args "good.yaml") YamlExample.world))
       = calls EndToEndExample.after_clients
           ++ map (execute_event (YamlExample.args "good.yaml"))
                (firstn k EndToEndExample.loaded)
    /\ (fst (main (H := Sample.external)
               (YamlExample.args "good.yaml") YamlExample.world) = Ok tt ->
        k = length EndToEndExample.loaded)
    /\ (forall e,
          fst (main (H := Sample.external)
                 (YamlExample.args "good.yaml") YamlExample.world) = Raise e ->
          1 <= k).
Proof.
  apply (run_config_executes_in_document_order (H := Sample.external)
           (YamlExample.args "good.yaml") YamlExample.world
           EndToEndExample.after_clients EndToEndExample.loaded);
    reflexivity.
Defined.

(* ================================================================== *)
(** ** The enumerator on any catalog *)

Section DictLiteralFacts.
Context {V : Type}.
Implicit Types (d : dict V) (k : string) (v : V).

Lemma dict_set_keys_In k' k v d :
  In k' (dict_keys (dict_set k v d)) <-> k' = k \/ In k' (dict_keys d).
Proof.
  induction d as [|[k0 v0] d IH]; simpl.
  - intuition.
  - destruct (String.eqb_spec k k0) as [-> | Hne]; simpl.
    + intuition.
    + rewrite IH. intuition.
Qed.

Lemma dict_set_keys_NoDup k v d :
  NoDup (dict_keys d) -> NoDup (dict_keys (dict_set k v d)).
Proof.
  induction d as [|[k0 v0] d IH]; simpl; intros Hnd.
  - constructor; [tauto | constructor].
  - inversion Hnd as [|? ? Hni Hnd']; subst.
    destruct (String.eqb_spec k k0) as [-> | Hne]; simpl.
    + now constructor.
    + constructor; [|now apply IH].
      intros Hin. apply dict_set_keys_In in Hin as [-> | Hin]; tauto.
Qed.

Lemma dict_set_length k v d : length (dict_set k v d) <= S (length d).
Proof.
  induction d as [|[k0 v0] d IH]; simpl; [lia|].
  destruct (String.eqb k k0); simpl; lia.
Qed.

Lemma store_all_keys_In k (items : list (string * V)) : forall d,
  In k (dict_keys (store_all items d))
  <-> In k (map fst items) \/ In k (dict_keys d).
Proof.
  induction items as [|[k0 v0] items IH]; simpl; intros d; [tauto|].
  unfold store_all in *. simpl. rewrite IH, dict_set_keys_In. intuition.
Qed.

Lemma store_all_keys_NoDup (items : list (string * V)) : forall d,
  NoDup (dict_keys d) -> NoDup (dict_keys (store_all items d)).
Proof.
  induction items as [|[k0 v0] items IH]; simpl; intros d Hnd; [assumption|].
  apply IH. now apply dict_set_keys_NoDup.
Qed.

Lemma store_all_length (items : list (string * V)) : forall d,
  length (store_all items d) <= length items + length d.
Proof.
  induction items as [|[k0 v0] items IH]; simpl; intros d; [lia|].
  unfold store_all in *. simpl. specialize (IH (dict_set k0 v0 d)).
  pose proof (dict_set_length k0 v0 d). lia.
Qed.

(** The last item stored under a key is the one found. *)
Lemma store_all_last k v (before after : list (string * V)) d :
  ~ In k (map fst after) ->
  dict_get k (store_all (before ++ (k, v) :: after) d) = Some v.
Proof.
  intros Hni. unfold store_all. rewrite fold_left_app. simpl.
  rewrite dict_get_fold_set_other by assumption. apply dict_get_set_same.
Qed.
End DictLiteralFacts.

Lemma enumerate_tables_store_all (database_name : string)
    (tables : list string) : forall table_map,
  enumerate_tables database_name table_map tables
  = Ok (store_all (map catalog_entry (map (pair database_name) tables))
          table_map).
Proof.
  unfold enumerate_tables, store_all.
  induction tables as [|t ts IH]; simpl; intros m; [reflexivity|].
  apply IH.
Qed.

Section EnumeratorMore.
Variable client : Client.

Lemma enumerate_databases_store_all (tables_of : string -> list string)
    (dbs : list string) : forall table_map,
  (forall db, In db dbs -> list_tables client db = Ok (tables_of db)) ->
  fold_result
    (fun table_map database_name =>
       (tables <- list_tables client database_name ;;
        fold_result
          (fun table_map table_name =>
             Ok (dict_set (table_key database_name table_name)
                   (table_obj_of database_name table_name) table_map))
          tables table_map)%result)
    dbs table_map
  = Ok (store_all (map catalog_entry (catalog_pairs tables_of dbs)) table_map).
Proof.
  induction dbs as [|db dbs IH]; simpl; intros m Hts; [reflexivity|].
  rewrite (Hts db (or_introl eq_refl)). simpl.
  pose proof (enumerate_tables_store_all db (tables_of db) m) as Hinner.
  unfold enumerate_tables in Hinner. rewrite Hinner. simpl.
  rewrite IH by (intros db' Hin; apply Hts; now right).
  unfold store_all. now rewrite map_app, fold_left_app.
Qed.

(** X18.  Whatever the catalog, the enumerator returns a map with unique keys
    that holds exactly the composite keys of the enumerated pairs and no
    more entries than there are pairs.  Under a composite key it holds the
    descriptor of the last enumerated pair with that key: when two pairs
    collide, the earlier one is lost. *)
Theorem enumerator_any_catalog (tables_of : string -> list string)
    (dbs : list string) :
  list_databases client = Ok dbs ->
  (forall db, In db dbs -> list_tables client db = Ok (tables_of db)) ->
  exists table_map,
    _get_all_tables_from_client client = Ok table_map
    /\ NoDup (dict_keys table_map)
    /\ (forall k, In k (dict_keys table_map)
                  <-> In k (pair_keys (catalog_pairs tables_of dbs)))
    /\ length table_map <= length (catalog_pairs tables_of dbs)
    /\ (forall before db t after,
          catalog_pairs tables_of dbs = before ++ (db, t) :: after ->
          ~ In (table_key db t) (pair_keys after) ->
          dict_get (table_key db t) table_map = Some (table_obj_of db t)).
Proof.
  intros Hdbs Hts.
  exists (store_all (map catalog_entry (catalog_pairs tables_of dbs)) []).
  assert (Hkeys : forall l, map fst (map catalog_entry l) = pair_keys l).
  { intros l. unfold pair_keys. rewrite map_map. reflexivity. }
  split; [|split; [|split; [|split]]].
  - unfold _get_all_tables_from_client. rewrite Hdbs. simpl.
    now apply enumerate_databases_store_all.
  - apply store_all_keys_NoDup. constructor.
  - intros k. rewrite store_all_keys_In, Hkeys. simpl. tauto.
  - pose proof (store_all_length
                  (map catalog_entry (catalog_pairs tables_of dbs)) []) as Hl.
    rewrite length_map in Hl. simpl in Hl. lia.
  - intros before db t after Hsplit Hlast. rewrite Hsplit, map_app. simpl.
    apply (store_all_last (table_key db t) (table_obj_of db t)).
    now rewrite Hkeys.
Qed.

(** X19.  An error of the client ends the enumeration with that error: from
    [list_databases], or from [list_tables] on the first database whose
    tables cannot be listed. *)
Theorem enumerator_propagates_errors (e : exn) :
  (list_databases client = Raise e ->
   _get_all_tables_from_client client = Raise e)
  /\ (forall before db after,
        list_databases client = Ok (before ++ db :: after) ->
        (forall db', In db' before ->
           exists ts, list_tables client db' = Ok ts) ->
        list_tables client db = Raise e ->
        _get_all_tables_from_client client = Raise e).
Proof.
  split.
  - intros He. unfold _get_all_tables_from_client. now rewrite He.
  - intros before db after Hdbs Hbefore He.
    unfold _get_all_tables_from_client. rewrite Hdbs. simpl. clear Hdbs.
    generalize (@nil (string * value)) as m.
    induction before as [|b bs IH]; simpl; intros m.
    + now rewrite He.
    + destruct (Hbefore b (or_introl eq_refl)) as (ts & Hts). rewrite Hts.
      simpl.
      pose proof (enumerate_tables_store_all b ts m) as Hinner.
      unfold enumerate_tables in Hinner. rewrite Hinner. simpl.
      apply IH. intros db' Hin. apply Hbefore. now right.
Qed.
End EnumeratorMore.

Lemma enumerator_any_catalog_witness :
  exists table_map,
    _get_all_tables_from_client CollisionExample.client = Ok table_map
    /\ NoDup (dict_keys table_map)
    /\ (forall k, In k (dict_keys table_map)
                  <-> In k (pair_keys
                              (catalog_pairs CollisionExample.tables_of
                                 ["a__b"; "a"])))
    /\ length table_map
       <= length (catalog_pairs CollisionExample.tables_of ["a__b"; "a"])
    /\ (forall before db t after,
          catalog_pairs CollisionExample.tables_of ["a__b"; "a"]
          = before ++ (db, t) :: after ->
          ~ In (table_key db t) (pair_keys after) ->
          dict_get (table_key db t) table_map = Some (table_obj_of db t)).
Proof.
  apply (enumerator_any_catalog CollisionExample.client
           CollisionExample.tables_of ["a__b"; "a"]).
  - reflexivity.
  - intros db _. reflexivity.
Defined.

Example colliding_keys_keep_the_later_pair :
  _get_all_tables_from_client CollisionExample.client
  = Ok [("a__b__c",
         VDict [("schema_name", VStr "a"); ("table_name", VStr "b__c")])].
Proof. reflexivity. Qed.

Lemma enumerator_propagates_errors_witness :
  _get_all_tables_from_client CollisionExample.failing
  = Raise (mkExn "PermissionError" "hr").
Proof.
  apply (proj2 (enumerator_propagates_errors CollisionExample.failing
                  (mkExn "PermissionError" "hr"))
           ["sales"] "hr" ["ops"]).
  - reflexivity.
  - intros db' [<- | []]. eexists. reflexivity.
  - reflexivity.
Defined.

(* ================================================================== *)
(** ** The matcher on empty catalogs *)

Section MatcherEdges.
Context `{External}.

(** X20.  With no source table the matcher returns no match, whatever the target
    catalog.  With a source table but an empty target catalog there is no
    closest match, and the lookup of the missing key raises a [KeyError]:
    the matcher does not return an empty list. *)
Theorem matcher_on_empty_catalogs :
  (forall target_table_map, _compare_match_tables [] target_table_map = Ok [])
  /\ (forall source_key sd schema rest,
        dict_get CONFIG_SCHEMA_NAME sd = Some schema ->
        exists key,
          _compare_match_tables ((source_key, VDict sd) :: rest) []
          = Raise (KeyError key)).
Proof.
  split; [reflexivity|].
  intros k sd schema rest Hs. exists "None".
  unfold _compare_match_tables. simpl.
  rewrite String.eqb_refl. simpl. rewrite Hs. reflexivity.
Qed.
End MatcherEdges.

Lemma matcher_on_empty_catalogs_witness :
  exists key,
    _compare_match_tables (H := Sample.external) Scenarios.source_C []
    = Raise (KeyError key).
Proof.
  apply (proj2 (matcher_on_empty_catalogs (H := Sample.external))
           "s__orphan" _ (VStr "s") []).
  reflexivity.
Defined.

(* ================================================================== *)
(** ** From two catalogs to the matches *)

Lemma dict_set_In {V} (k k' : string) (v v' : V) (d : dict V) :
  In (k', v') (dict_set k v d) -> (k', v') = (k, v) \/ In (k', v') d.
Proof.
  induction d as [|[k0 v0] d IH]; simpl.
  - intuition.
  - destruct (String.eqb k k0); simpl; intuition.
Qed.

Lemma store_all_In {V} (k : string) (v : V) (items : list (string * V)) :
  forall d, In (k, v) (store_all items d) -> In (k, v) items \/ In (k, v) d.
Proof.
  induction items as [|[k0 v0] items IH]; simpl; intros d Hin; [tauto|].
  apply IH in Hin as [Hin | Hin]; [tauto|].
  apply dict_set_In in Hin as [Heq | Hin]; [|tauto].
  left. left. now symmetry.
Qed.

(** The table maps the enumerator builds are well formed for the matcher. *)
Lemma is_table_map_store_all (pairs : list (string * string)) :
  is_table_map (store_all (map catalog_entry pairs) []).
Proof.
  intros k v Hin. apply store_all_In in Hin as [Hin | []].
  apply in_map_iff in Hin as ([db t] & Heq & _). inversion Heq; subst.
  eexists _, _. split; reflexivity.
Qed.

Section FindTables.
Context `{External}.

(** X21.  [find-tables] on two catalogs that can be listed, with a target
    catalog that is not empty and a metric that is never negative: the
    command succeeds, and its output is the encoding of exactly one match
    per entry of the source table map. *)
Theorem find_tables_pairs_every_source_table (args : Args) (w : World)
    (sconn tconn : value) (sclient tclient : Client)
    (sdbs tdbs : list string) (stables ttables : string -> list string) :
  get_connection (VStr (args_source_conn args)) (conn_store w) = Ok sconn ->
  get_connection (VStr (args_target_conn args)) (conn_store w) = Ok tconn ->
  get_data_client sconn = Ok sclient ->
  get_data_client tconn = Ok tclient ->
  list_databases sclient = Ok sdbs ->
  (forall db, In db sdbs -> list_tables sclient db = Ok (stables db)) ->
  list_databases tclient = Ok tdbs ->
  (forall db, In db tdbs -> list_tables tclient db = Ok (ttables db)) ->
  catalog_pairs ttables tdbs <> [] ->
  (forall a b, 0 <= similarity a b)%Q ->
  exists source_table_map target_table_map matches,
    _get_all_tables_from_client sclient = Ok source_table_map
    /\ _get_all_tables_from_client tclient = Ok target_table_map
    /\ _compare_match_tables source_table_map target_table_map = Ok matches
    /\ length matches = length source_table_map
    /\ fst (find_tables_using_string_matching args w)
       = Ok (json_dumps (VList matches)).
Proof.
  intros Hs Ht Hsc Htc Hsd Hst Htd Htt Hne Hpos.
  set (smap := store_all (map catalog_entry (catalog_pairs stables sdbs)) []).
  set (tmap := store_all (map catalog_entry (catalog_pairs ttables tdbs)) []).
  assert (Hsmap : _get_all_tables_from_client sclient = Ok smap).
  { unfold _get_all_tables_from_client. rewrite Hsd. simpl.
    now apply enumerate_databases_store_all. }
  assert (Htmap : _get_all_tables_from_client tclient = Ok tmap).
  { unfold _get_all_tables_from_client. rewrite Htd. simpl.
    now apply enumerate_databases_store_all. }
  assert (Htne : tmap <> []).
  { destruct (catalog_pairs ttables tdbs) as [|[db t] l] eqn:Hp; [congruence|].
    intros Hnil.
    assert (Hin : In (table_key db t) (dict_keys tmap)).
    { unfold tmap. apply store_all_keys_In. left. simpl. now left. }
    rewrite Hnil in Hin. exact Hin. }
  destruct (compare_match_tables_shape smap tmap Htne Hpos
              (is_table_map_store_all _) (is_table_map_store_all _))
    as (matches & Hm & HF).
  exists smap, tmap, matches.
  repeat (split; [assumption|]).
  split.
  - apply Forall2_length in HF. unfold dict_keys in HF.
    now rewrite length_map in HF.
  - unfold find_tables_using_string_matching, bind, resolve_connection,
      acquire_client, bind, log, lift, ret.
    rewrite Hs, Ht. simpl. rewrite Hsc. simpl. rewrite Htc. simpl.
    now rewrite Hsmap, Htmap, Hm.
Qed.
End FindTables.

Lemma find_tables_pairs_every_source_table_witness :
  exists source_table_map target_table_map matches,
    _get_all_tables_from_client FindTablesExample.source_client
    = Ok source_table_map
    /\ _get_all_tables_from_client FindTablesExample.target_client
       = Ok target_table_map
    /\ _compare_match_tables (H := FindTablesExample.external)
         source_table_map target_table_map = Ok matches
    /\ length matches = length source_table_map
    /\ fst (find_tables_using_string_matching (H := FindTablesExample.external)
              FindTablesExample.args FindTablesExample.world)
       = Ok (json_dumps (External := FindTablesExample.external)
               (VList matches)).
Proof.
  apply (find_tables_pairs_every_source_table (H := FindTablesExample.external)
           FindTablesExample.args FindTablesExample.world
           (VStr "source") (VStr "target")
           FindTablesExample.source_client FindTablesExample.target_client
           ["s"] ["s"] (fun _ => ["t1"]) (fun _ => ["t1"; "t2"]));
    try reflexivity.
  - discriminate.
  - exact sample_similarity_nonneg.
Defined.

(* ================================================================== *)
(** ** Through a file and back *)

Lemma leb_refl (s : string) : String.leb s s = true.
Proof. destruct (String.leb_total s s); assumption. Qed.

Lemma insert_entry_get {V} (k k0 : string) (v0 : V) (d : dict V) :
  dict_get k (insert_entry k0 v0 d)
  = if String.eqb k k0 then Some v0 else dict_get k d.
Proof.
  induction d as [|[k' v'] d IH]; simpl; [reflexivity|].
  destruct (String.leb k0 k') eqn:E; simpl; [reflexivity|].
  rewrite IH. destruct (String.eqb_spec k k0) as [-> | Hne]; [|reflexivity].
  destruct (String.eqb_spec k0 k') as [<- | _]; [|reflexivity].
  rewrite leb_refl in E. discriminate.
Qed.

(** Sorting the entries changes no lookup. *)
Lemma sort_entries_get {V} (k : string) (d : dict V) :
  dict_get k (sort_entries d) = dict_get k d.
Proof.
  induction d as [|[k' v'] d IH]; simpl; [reflexivity|].
  now rewrite insert_entry_get, IH.
Qed.

Lemma map_values_get {A B} (f : A -> B) (k : string) (d : dict A) :
  dict_get k (map_values f d) = option_map f (dict_get k d).
Proof.
  induction d as [|[k' v'] d IH]; simpl; [reflexivity|].
  now destruct (String.eqb k k').
Qed.

Lemma dumped_and_loaded_dict (d : dict value) :
  dumped_and_loaded (VDict d) = VDict (stored_entries d).
Proof.
  unfold stored_entries, map_values. cbn [dumped_and_loaded]. do 2 f_equal.
  induction d as [|[k v] d IH]; simpl; [reflexivity|]. now rewrite IH.
Qed.

Lemma stored_entries_get (k : string) (d : dict value) :
  dict_get k (stored_entries d)
  = option_map dumped_and_loaded (dict_get k d).
Proof. unfold stored_entries. now rewrite sort_entries_get, map_values_get. Qed.

(** The document the writer stores: the four keys in sorted order. *)
Lemma stored_document (args : Args) (first : ConfigManager)
    (rest : list ConfigManager) :
  dumped_and_loaded (document_of args first rest)
  = VDict [("result_handler",
             dumped_and_loaded (result_handler_config first));
           ("source", VStr (args_source_conn args));
           ("target", VStr (args_target_conn args));
           ("validations",
             VList (map dumped_and_loaded
                      (map get_yaml_validation_block (first :: rest))))].
Proof. reflexivity. Qed.

Lemma stored_block (cm : ConfigManager) :
  dumped_and_loaded (get_yaml_validation_block cm)
  = VDict (stored_entries
             (filter
                (fun kv =>
                   negb (existsb (String.eqb (fst kv)) document_level_keys))
                (config cm))).
Proof. unfold get_yaml_validation_block. apply dumped_and_loaded_dict. Qed.

Lemma stored_block_without_document_fields (cm : ConfigManager) :
  block_without_document_fields
    (dumped_and_loaded (get_yaml_validation_block cm)).
Proof.
  rewrite stored_block. eexists. split; [reflexivity|]. intros k Hk.
  rewrite stored_entries_get, dict_get_without_document_keys.
  replace (existsb (String.eqb k) document_level_keys) with true;
    [reflexivity|].
  symmetry. apply existsb_exists. exists k.
  split; [assumption | apply String.eqb_refl].
Qed.

Lemma reloaded_get (sconn tconn rh : value) (sclient tclient : Client)
    (verbose : bool) (cm : ConfigManager) (k : string) :
  dict_get k (config (reloaded sconn tconn rh sclient tclient verbose cm))
  = if String.eqb k CONFIG_RESULT_HANDLER then Some rh
    else if String.eqb k CONFIG_TARGET_CONN then Some tconn
    else if String.eqb k CONFIG_SOURCE_CONN then Some sconn
    else option_map dumped_and_loaded (dict_get k (config cm)).
Proof.
  unfold reloaded. rewrite injected_get, stored_entries_get,
    dict_get_without_document_keys.
  unfold document_level_keys. simpl existsb.
  destruct (String.eqb k CONFIG_RESULT_HANDLER); [reflexivity|].
  destruct (String.eqb k CONFIG_TARGET_CONN); [reflexivity|].
  destruct (String.eqb k CONFIG_SOURCE_CONN); reflexivity.
Qed.

Lemma reloaded_get_other (sconn tconn rh : value) (sclient tclient : Client)
    (verbose : bool) (cm : ConfigManager) (k : string) :
  ~ In k document_level_keys ->
  dict_get k (config (reloaded sconn tconn rh sclient tclient verbose cm))
  = option_map dumped_and_loaded (dict_get k (config cm)).
Proof.
  intros Hk. rewrite reloaded_get. unfold document_level_keys in Hk.
  simpl in Hk.
  destruct (String.eqb_spec k CONFIG_RESULT_HANDLER); [intuition congruence|].
  destruct (String.eqb_spec k CONFIG_TARGET_CONN); [intuition congruence|].
  destruct (String.eqb_spec k CONFIG_SOURCE_CONN); [intuition congruence|].
  reflexivity.
Qed.

(** The aggregate list read from a field that went through a file. *)
Lemma aggregates_of_stored (field : option value) :
  match option_map dumped_and_loaded field with
  | Some (VList l) => l
  | _ => []
  end
  = map dumped_and_loaded
      match field with
      | Some (VList l) => l
      | _ => []
      end.
Proof. destruct field as [[]|]; reflexivity. Qed.

Section StoreAndLoad.
Context `{External}.

Lemma store_succeeds (args : Args) (w : World) (path : string)
    (first : ConfigManager) (rest : list ConfigManager) :
  args_config_file args = Some path ->
  truthy (Some path) = true ->
  open_for_writing path = Ok tt ->
  store_yaml_config_file args (first :: rest) w
  = (Ok tt,
     written path (dumped_and_loaded (document_of args first rest)) w).
Proof.
  intros Hfile Ht Hopen.
  unfold store_yaml_config_file, bind, lift, _get_arg_config_file, write_file.
  rewrite Hfile, Ht, convert_config_to_yaml_cons. cbv iota beta.
  now rewrite Hopen.
Qed.

Lemma store_fails (args : Args) (w : World) (path : string)
    (cms : list ConfigManager) (e : exn) :
  args_config_file args = Some path ->
  truthy (Some path) = true ->
  cms <> [] ->
  open_for_writing path = Raise e ->
  store_yaml_config_file args cms w = (Raise e, w).
Proof.
  intros Hfile Ht Hne Hopen. destruct cms as [|first rest]; [congruence|].
  unfold store_yaml_config_file, bind, lift, _get_arg_config_file, write_file.
  rewrite Hfile, Ht, convert_config_to_yaml_cons. cbv iota beta.
  now rewrite Hopen.
Qed.

(** The YAML path on the document the writer stored. *)
Lemma load_stored (args args' : Args) (w : World) (path : string)
    (first : ConfigManager) (rest : list ConfigManager)
    (sconn tconn : value) (sclient tclient : Client) :
  args_config_file args' = Some path ->
  truthy (Some path) = true ->
  get_connection (VStr (args_source_conn args)) (conn_store w) = Ok sconn ->
  get_connection (VStr (args_target_conn args)) (conn_store w) = Ok tconn ->
  get_data_client sconn = Ok sclient ->
  get_data_client tconn = Ok tclient ->
  build_config_managers_from_yaml args'
    (written path (dumped_and_loaded (document_of args first rest)) w)
  = (Ok (map (reloaded sconn tconn
                (dumped_and_loaded (result_handler_config first))
                sclient tclient (args_verbose args'))
           (first :: rest)),
     logged (EvGetDataClient tconn)
       (logged (EvGetDataClient sconn)
          (written path (dumped_and_loaded (document_of args first rest))
             w))).
Proof.
  intros Hfile Ht Hs Htg Hsc Htc.
  set (w2 := written path (dumped_and_loaded (document_of args first rest)) w).
  assert (Hdoc : dict_get path (files w2)
                 = Some (dumped_and_loaded (document_of args first rest))).
  { apply dict_get_set_same. }
  rewrite stored_document in Hdoc.
  rewrite (build_config_managers_from_yaml_steps args' w2 path _
             Hfile Ht Hdoc).
  change (dict_get YAML_SOURCE _)
    with (Some (VStr (args_source_conn args))). cbv iota beta.
  change (conn_store w2) with (conn_store w). rewrite Hs.
  change (dict_get YAML_TARGET _)
    with (Some (VStr (args_target_conn args))). cbv iota beta.
  rewrite Htg, Hsc. cbv zeta. rewrite Htc.
  change (dict_get YAML_VALIDATIONS _)
    with (Some (VList (map dumped_and_loaded
                         (map get_yaml_validation_block (first :: rest))))).
  cbv iota beta. cbn [py_iter]. f_equal.
  rewrite map_map. apply map_result_map. intros cm _.
  rewrite stored_block, config_manager_of_block_dict. reflexivity.
Qed.

Lemma build_config_from_args_bound (args : Args) (config_type : string)
    (sconn tconn : value) (sclient tclient : Client)
    (table_obj rhc : value) (verbose : bool) (cm : ConfigManager) :
  build_config_from_args args
    (build_config_manager config_type sconn tconn sclient tclient
       table_obj rhc verbose) = Ok cm ->
  bound_to sconn tconn rhc cm
  /\ validation_type cm = Some (VStr config_type).
Proof.
  intros Hb. unfold bound_to, validation_type.
  rewrite !(build_config_from_args_get _ _ _ _ Hb) by discriminate.
  split; [|apply base_validation_type].
  split; [apply base_source_conn|]. split; [apply base_target_conn|].
  apply base_result_handler_get.
Qed.

(** A configuration of the argument path and the one loaded from its
    stored block. *)
Lemma reloaded_same (sconn tconn rhc : value) (sclient tclient : Client)
    (verbose : bool) (config_type : string) (cm : ConfigManager) :
  bound_to sconn tconn rhc cm ->
  validation_type cm = Some (VStr config_type) ->
  same_configuration cm
    (reloaded sconn tconn (dumped_and_loaded rhc) sclient tclient verbose cm).
Proof.
  intros (Hs & Ht & Hr) Hty.
  assert (Hagg : aggregates
                   (reloaded sconn tconn (dumped_and_loaded rhc)
                      sclient tclient verbose cm)
                 = map dumped_and_loaded (aggregates cm)).
  { unfold aggregates. rewrite reloaded_get_other.
    - apply aggregates_of_stored.
    - unfold document_level_keys. simpl. intuition discriminate. }
  unfold same_configuration. rewrite Hagg, length_map.
  unfold validation_type, source_conn, target_conn, result_handler_config
    in *.
  rewrite !reloaded_get. simpl. rewrite Hs, Ht, Hr, Hty.
  repeat split; auto.
  intros k Hk.
  exact (reloaded_get_other sconn tconn _ sclient tclient verbose cm k Hk).
Qed.
End StoreAndLoad.

Section RoundTripClaim.
Context `{External}.

(** C6.  A non-empty list of configurations assembled from the arguments,
    written to a configuration file that can be opened for writing and
    built again through the YAML path, gives as many configurations in the
    same order, each with the validation type, the number of aggregates and
    the connections of the original, and with every other field equal up to
    the order of the keys inside its mappings.  The document read back has
    the keys [result_handler], [source], [target] and [validations] once
    each, and no validation block repeats a document-level field. *)
Theorem yaml_round_trip (args args' : Args) (w w1 : World)
    (cms : list ConfigManager) (path : string) :
  build_config_managers_from_args args w = (Ok cms, w1) ->
  cms <> [] ->
  args_config_file args = Some path ->
  truthy (Some path) = true ->
  open_for_writing path = Ok tt ->
  args_config_file args' = Some path ->
  exists doc w2 cms' w3,
    store_yaml_config_file args cms w1 = (Ok tt, w2)
    /\ dict_get path (files w2) = Some (VDict doc)
    /\ dict_keys doc = ["result_handler"; "source"; "target"; "validations"]
    /\ dict_get "validations" doc
       = Some (VList (map dumped_and_loaded
                        (map get_yaml_validation_block cms)))
    /\ Forall block_without_document_fields
         (map dumped_and_loaded (map get_yaml_validation_block cms))
    /\ build_config_managers_from_yaml args' w2 = (Ok cms', w3)
    /\ length cms' = length cms
    /\ Forall2 same_configuration cms cms'.
Proof.
  intros Hbuild Hne Hfile Htruthy Hopen Hfile'.
  apply build_config_managers_from_args_Ok in Hbuild
    as (sconn & tconn & rhc & sclient & tclient & tl & objs
        & Hs & Ht & Hsc & Htc & _ & _ & -> & HF).
  set (w1 := logged (EvGetDataClient tconn)
               (logged (EvGetDataClient sconn) w)).
  assert (Hbound : Forall (fun cm => bound_to sconn tconn rhc cm
                             /\ validation_type cm
                                = Some (VStr (args_type args))) cms).
  { clear Hne. induction HF as [|obj cm objs cms Hcm _ IH];
      constructor; [|exact IH].
    eapply build_config_from_args_bound. exact Hcm. }
  destruct cms as [|first rest]; [congruence|].
  assert (Hrh : result_handler_config first = rhc).
  { inversion Hbound as [|? ? ((_ & _ & Hr) & _) _]; subst.
    unfold result_handler_config. now rewrite Hr. }
  set (w2 := written path (dumped_and_loaded (document_of args first rest))
               w1).
  exists [("result_handler", dumped_and_loaded (result_handler_config first));
          ("source", VStr (args_source_conn args));
          ("target", VStr (args_target_conn args));
          ("validations",
            VList (map dumped_and_loaded
                     (map get_yaml_validation_block (first :: rest))))],
    w2,
    (map (reloaded sconn tconn
            (dumped_and_loaded (result_handler_config first))
            sclient tclient (args_verbose args'))
       (first :: rest)),
    (logged (EvGetDataClient tconn) (logged (EvGetDataClient sconn) w2)).
  split; [apply store_succeeds; assumption|].
  split; [rewrite <- stored_document; apply dict_get_set_same|].
  split; [reflexivity|]. split; [reflexivity|].
  split.
  { apply Forall_forall. intros b Hb.
    apply in_map_iff in Hb as (b0 & <- & Hb).
    apply in_map_iff in Hb as (cm & <- & _).
    apply stored_block_without_document_fields. }
  split.
  { apply (load_stored args args' w1 path first rest sconn tconn
             sclient tclient); assumption. }
  split; [apply length_map|].
  rewrite Hrh. clear - Hbound.
  induction Hbound as [|cm cms [Hb Hty] _ IH]; simpl; constructor;
    [|exact IH].
  eapply reloaded_same; eassumption.
Qed.

(** X5.  Writing a non-empty list of configurations to a configuration
    file.  When the path can be opened for writing, the writer succeeds and
    reading the path back gives a mapping with the keys [result_handler],
    [source], [target] and [validations] in that (sorted) order: the two
    connection arguments, the result handler of the first configuration and
    the validation blocks in order, the keys of every mapping sorted.  When
    opening raises, the writer raises the same error and stores nothing. *)
Theorem store_then_read (args : Args) (w : World) (path : string)
    (first : ConfigManager) (rest : list ConfigManager) :
  args_config_file args = Some path ->
  truthy (Some path) = true ->
  (open_for_writing path = Ok tt ->
   exists w2,
     store_yaml_config_file args (first :: rest) w = (Ok tt, w2)
     /\ _get_yaml_config_from_file path w2
        = (Ok (VDict
                 [("result_handler",
                    dumped_and_loaded (result_handler_config first));
                  ("source", VStr (args_source_conn args));
                  ("target", VStr (args_target_conn args));
                  ("validations",
                    VList (map dumped_and_loaded
                             (map get_yaml_validation_block
                                (first :: rest))))]),
           w2))
  /\ (forall e,
        open_for_writing path = Raise e ->
        store_yaml_config_file args (first :: rest) w = (Raise e, w)).
Proof.
  intros Hfile Ht. split.
  - intros Hopen.
    exists (written path (dumped_and_loaded (document_of args first rest)) w).
    split; [apply store_succeeds; assumption|].
    unfold _get_yaml_config_from_file.
    replace (dict_get path (files (written path _ w)))
      with (Some (dumped_and_loaded (document_of args first rest)))
      by (symmetry; apply dict_get_set_same).
    now rewrite stored_document.
  - intros e Hopen. apply (store_fails args w path); auto. discriminate.
Qed.

(** X15.  Storing any non-empty list of configurations in a file that can
    be opened for writing and loading that file again gives one
    configuration per original, in order.  Each has the connections
    resolved from the connection arguments and the result handler of the
    first original (as read back), whatever the original itself held there,
    and agrees with its original on every other field up to the order of
    the keys inside its mappings. *)
Theorem store_then_load (args args' : Args) (w : World) (path : string)
    (first : ConfigManager) (rest : list ConfigManager)
    (sconn tconn : value) (sclient tclient : Client) :
  args_config_file args = Some path ->
  truthy (Some path) = true ->
  open_for_writing path = Ok tt ->
  args_config_file args' = Some path ->
  get_connection (VStr (args_source_conn args)) (conn_store w) = Ok sconn ->
  get_connection (VStr (args_target_conn args)) (conn_store w) = Ok tconn ->
  get_data_client sconn = Ok sclient ->
  get_data_client tconn = Ok tclient ->
  exists w2 cms',
    store_yaml_config_file args (first :: rest) w = (Ok tt, w2)
    /\ fst (build_config_managers_from_yaml args' w2) = Ok cms'
    /\ length cms' = length (first :: rest)
    /\ Forall (fun cm' =>
                 source_conn cm' = Some sconn
                 /\ target_conn cm' = Some tconn
                 /\ result_handler_config cm'
                    = dumped_and_loaded (result_handler_config first))
         cms'
    /\ Forall2 (fun cm cm' =>
                  forall k, ~ In k document_level_keys ->
                    dict_get k (config cm')
                    = option_map dumped_and_loaded (dict_get k (config cm)))
         (first :: rest) cms'.
Proof.
  intros Hfile Ht Hopen Hfile' Hs Htg Hsc Htc.
  exists (written path (dumped_and_loaded (document_of args first rest)) w),
    (map (reloaded sconn tconn
            (dumped_and_loaded (result_handler_config first))
            sclient tclient (args_verbose args'))
       (first :: rest)).
  split; [apply store_succeeds; assumption|].
  rewrite (load_stored args args' w path first rest sconn tconn
             sclient tclient) by assumption.
  split; [reflexivity|]. split; [apply length_map|]. split.
  - apply Forall_forall. intros cm' Hin.
    apply in_map_iff in Hin as (cm & <- & _).
    split; [|split].
    + unfold source_conn. now rewrite reloaded_get.
    + unfold target_conn. now rewrite reloaded_get.
    + unfold result_handler_config at 1. now rewrite reloaded_get.
  - generalize (first :: rest). intros l.
    induction l as [|cm l IH]; simpl; constructor; [|exact IH].
    intros k Hk. now apply reloaded_get_other.
Qed.
End RoundTripClaim.

Example round_trip_two_configurations :
  length RoundTripExample.assembled = 2.
Proof. reflexivity. Qed.

Lemma yaml_round_trip_witness :
  exists doc w2 cms' w3,
    store_yaml_config_file (H := Sample.external)
      RoundTripExample.args RoundTripExample.assembled
      ScenarioA.after_clients = (Ok tt, w2)
    /\ dict_get "out.yaml" (files w2) = Some (VDict doc)
    /\ dict_keys doc = ["result_handler"; "source"; "target"; "validations"]
    /\ dict_get "validations" doc
       = Some (VList (map dumped_and_loaded
                        (map get_yaml_validation_block
                           RoundTripExample.assembled)))
    /\ Forall block_without_document_fields
         (map dumped_and_loaded
            (map get_yaml_validation_block RoundTripExample.assembled))
    /\ build_config_managers_from_yaml (H := Sample.external)
         RoundTripExample.args' w2 = (Ok cms', w3)
    /\ length cms' = length RoundTripExample.assembled
    /\ Forall2 same_configuration RoundTripExample.assembled cms'.
Proof.
  apply (yaml_round_trip (H := Sample.external)
           RoundTripExample.args RoundTripExample.args'
           Sample.world ScenarioA.after_clients
           RoundTripExample.assembled "out.yaml").
  - reflexivity.
  - discriminate.
  - reflexivity.
  - reflexivity.
  - reflexivity.
  - reflexivity.
Defined.

Lemma store_then_read_witness :
  (exists w2,
     store_yaml_config_file (H := Sample.external) RoundTripExample.args
       [ScenarioA.assembled] Sample.world = (Ok tt, w2)
     /\ _get_yaml_config_from_file "out.yaml" w2
        = (Ok (VDict
                 [("result_handler",
                    dumped_and_loaded
                      (result_handler_config ScenarioA.assembled));
                  ("source", VStr "A"); ("target", VStr "B");
                  ("validations",
                    VList (map dumped_and_loaded
                             (map get_yaml_validation_block
                                [ScenarioA.assembled])))]),
           w2))
  /\ store_yaml_config_file (H := Sample.external)
       (mkArgs "run" "list" "C" (Some "nodir/out.yaml") "A" "B"
          Sample.one_table_text "Column" (Some "*") None None None false)
       [ScenarioA.assembled] Sample.world
     = (Raise (FileNotFoundError "nodir/out.yaml"), Sample.world).
Proof.
  split.
  - apply (proj1 (store_then_read (H := Sample.external)
                    RoundTripExample.args Sample.world "out.yaml"
                    ScenarioA.assembled [] eq_refl eq_refl)).
    reflexivity.
  - apply (proj2 (store_then_read (H := Sample.external)
                    (mkArgs "run" "list" "C" (Some "nodir/out.yaml") "A" "B"
                       Sample.one_table_text "Column" (Some "*") None None
                       None false)
                    Sample.world "nodir/out.yaml"
                    ScenarioA.assembled [] eq_refl eq_refl)).
    reflexivity.
Defined.

Lemma store_then_load_witness :
  exists w2 cms',
    store_yaml_config_file (H := Sample.external) RoundTripExample.args
      [ScenarioA.assembled; RunnerExample.good "u"] Sample.world
    = (Ok tt, w2)
    /\ fst (build_config_managers_from_yaml (H := Sample.external)
              RoundTripExample.args' w2) = Ok cms'
    /\ length cms' = length [ScenarioA.assembled; RunnerExample.good "u"]
    /\ Forall (fun cm' =>
                 source_conn cm' = Some YamlExample.conn_A
                 /\ target_conn cm' = Some YamlExample.conn_B
                 /\ result_handler_config cm'
                    = dumped_and_loaded
                        (result_handler_config ScenarioA.assembled))
         cms'
    /\ Forall2 (fun cm cm' =>
                  forall k, ~ In k document_level_keys ->
                    dict_get k (config cm')
                    = option_map dumped_and_loaded (dict_get k (config cm)))
         [ScenarioA.assembled; RunnerExample.good "u"] cms'.
Proof.
  apply (store_then_load (H := Sample.external)
           RoundTripExample.args RoundTripExample.args' Sample.world
           "out.yaml" ScenarioA.assembled [RunnerExample.good "u"]
           YamlExample.conn_A YamlExample.conn_B
           AssemblerExample.no_client AssemblerExample.no_client);
    reflexivity.
Defined.

(** The stored document of Scenario A: keys sorted at every level. *)
Example scenario_A_stored_block :
  map dumped_and_loaded (map get_yaml_validation_block [ScenarioA.assembled])
  = [VDict
       [("aggregates",
          VList [VDict [("columns", VStr "all"); ("kind", VStr "count");
                        ("type_filter", VNone)];
                 VDict [("columns", VStr "all"); ("kind", VStr "count");
                        ("type_filter", VNone)]]);
        ("schema_name", VStr "s"); ("table_name", VStr "t");
        ("type", VStr "Column")]].
Proof. reflexivity. Qed.
